(** * Undercooked: the board model of [Game.cpp]

    A shallow embedding of the game-state part of [Game.cpp]: the 5x5
    [board], the [chef] position, the [win] flags, the table
    [board_meshes], and the methods [initBoard], [spawnFood], [getFood]
    and [handle_event]; further on, the loops of [draw] and the index of
    meshes the constructor builds.  The methods mutate the fields of one [Game]
    object, so they are written in a state monad over [Game]; an access
    outside an array and a remainder by zero, which are undefined in C++,
    stop the computation and keep the state reached so far. *)

From Stdlib Require Import ZArith Lia Bool.
From stdpp Require Import base list option strings gmap.

Open Scope Z_scope.

(** ** Data *)

(** Cell codes, as listed in the comment of [initBoard]: 0 empty square,
    1 chef, 2 jelly, 3 peanut butter, 4 bread, 5 goal square, 6 empty side
    square. *)
Definition Empty : Z := 0.
Definition Character : Z := 1.
Definition Jelly : Z := 2.
Definition PeanutButter : Z := 3.
Definition Bread : Z := 4.
Definition Goal : Z := 5.
Definition OutOfPlay : Z := 6.

(** The meshes looked up in the constructor; [board_meshes] holds pointers
    to them, or [nullptr] ([None]). *)
Inductive Mesh := tile_mesh | doll_mesh | bread_mesh | pb_mesh | j_mesh | cube_mesh.

(** [board_rotations] only ever receives [glm::quat()]. *)
Inductive quat := quat_identity.

(** [chef.x], [chef.y]. *)
Record vec2 := { X : Z; Y : Z }.

(** Modelled from the spec: the type of the struct [win], declared in
    [Game.hpp]: three independent booleans.  [Game.cpp] assigns them 0 and
    1 and compares them with 1. *)
Record Win := { PB : bool; J : bool; bread : bool }.

(** Modelled from the spec: the types of the fields of [Game], declared
    in [Game.hpp]: a 5x5 array of cell codes addressed by integers, the
    position of the character, the flags and the mesh assigned to each
    cell.  The field names are those [Game.cpp] uses. *)
Record Game := {
  board : list (list Z);              (* board[x][y] *)
  chef : vec2;
  win : Win;
  board_meshes : list (option Mesh);  (* slot board_size.x * x + y *)
  board_rotations : list quat
}.

(** Modelled from the spec: the value of [board_size], declared in
    [Game.hpp]: the grid is 5 by 5. *)
Definition board_size : vec2 := {| X := 5; Y := 5 |}.

#[global] Instance Mesh_eq_dec : EqDecision Mesh.
Proof. solve_decision. Defined.
#[global] Instance quat_eq_dec : EqDecision quat.
Proof. solve_decision. Defined.
#[global] Instance vec2_eq_dec : EqDecision vec2.
Proof. solve_decision. Defined.
#[global] Instance Win_eq_dec : EqDecision Win.
Proof. solve_decision. Defined.
#[global] Instance Game_eq_dec : EqDecision Game.
Proof. solve_decision. Defined.

(** ** The monad *)

(** What is undefined in C++ and can happen in these methods. *)
Inductive undefined := DivisionByZero | ArrayIndex.

(** The two errors named by the specification, and undefined behaviour.
    No method of [Game.cpp] raises either of the first two. *)
Inductive failure :=
  | InsufficientSpawnCells
  | CellOutOfBounds
  | Undefined (u : undefined).

Inductive outcome (A : Type) :=
  | Done (a : A) (g : Game)
  | Failed (e : failure) (g : Game).
Arguments Done {A} a g.
Arguments Failed {A} e g.

Definition M (A : Type) : Type := Game → outcome A.

#[global] Instance M_ret : MRet M := λ A a g, Done a g.
#[global] Instance M_bind : MBind M := λ A B f m g,
  match m g with
  | Done a g' => f a g'
  | Failed e g' => Failed e g'
  end.

Definition fail {A} (e : failure) : M A := λ g, Failed e g.

(** ** Field access *)

Definition get_cell (b : list (list Z)) (x y : Z) : option Z :=
  if (0 <=? x) && (0 <=? y)
  then row ← b !! Z.to_nat x; row !! Z.to_nat y
  else None.

Definition set_cell (b : list (list Z)) (x y v : Z) : option (list (list Z)) :=
  if (0 <=? x) && (0 <=? y)
  then row ← b !! Z.to_nat x;
       _ ← row !! Z.to_nat y;
       Some (<[Z.to_nat x := <[Z.to_nat y := v]> row]> b)
  else None.

Definition set_slot {A} (l : list A) (i : Z) (a : A) : option (list A) :=
  if 0 <=? i then _ ← l !! Z.to_nat i; Some (<[Z.to_nat i := a]> l) else None.

Definition with_board (b : list (list Z)) (g : Game) : Game :=
  {| board := b; chef := chef g; win := win g;
     board_meshes := board_meshes g; board_rotations := board_rotations g |}.
Definition with_chef (c : vec2) (g : Game) : Game :=
  {| board := board g; chef := c; win := win g;
     board_meshes := board_meshes g; board_rotations := board_rotations g |}.
Definition with_win (w : Win) (g : Game) : Game :=
  {| board := board g; chef := chef g; win := w;
     board_meshes := board_meshes g; board_rotations := board_rotations g |}.
Definition with_meshes (ms : list (option Mesh)) (g : Game) : Game :=
  {| board := board g; chef := chef g; win := win g;
     board_meshes := ms; board_rotations := board_rotations g |}.
Definition with_rotations (rs : list quat) (g : Game) : Game :=
  {| board := board g; chef := chef g; win := win g;
     board_meshes := board_meshes g; board_rotations := rs |}.

(** [board[x][y]] as an rvalue. *)
Definition read_board (x y : Z) : M Z := λ g,
  match get_cell (board g) x y with
  | Some v => Done v g
  | None => Failed (Undefined ArrayIndex) g
  end.

(** [board[x][y] = v]. *)
Definition write_board (x y v : Z) : M unit := λ g,
  match set_cell (board g) x y v with
  | Some b => Done tt (with_board b g)
  | None => Failed (Undefined ArrayIndex) g
  end.

(** [board_meshes[ind] = m].  The vector is reserved for 25 entries and
    addressed by index; it is modelled by its slots. *)
Definition write_mesh (ind : Z) (m : option Mesh) : M unit := λ g,
  match set_slot (board_meshes g) ind m with
  | Some ms => Done tt (with_meshes ms g)
  | None => Failed (Undefined ArrayIndex) g
  end.

Definition get_chef : M vec2 := λ g, Done (chef g) g.
Definition set_chef (c : vec2) : M unit := λ g, Done tt (with_chef c g).
Definition get_win : M Win := λ g, Done (win g) g.
Definition set_win (w : Win) : M unit := λ g, Done tt (with_win w g).

(** [board_rotations.emplace_back(glm::quat())]. *)
Definition push_rotation : M unit := λ g,
  Done tt (with_rotations (board_rotations g ++ [quat_identity]) g).

(** [for (i = lo; i < lo + n; ++i) body(i)]. *)
Fixpoint for_loop (n : nat) (i : Z) (body : Z → M unit) : M unit :=
  match n with
  | O => mret tt
  | S n' => body i;; for_loop n' (i + 1) body
  end.

Definition for_range (lo hi : Z) (body : Z → M unit) : M unit :=
  for_loop (Z.to_nat (hi - lo)) lo body.

(** ** [Game::spawnFood] *)

(** The code written on the [i]-th draw: PB, J, bread, goal. *)
Definition spawn_code (i : Z) : Z :=
  if i =? 0 then 3 else if i =? 1 then 2 else if i =? 2 then 4 else 5.

(** The loop of [spawnFood], with its locals [i], [len] and [counterSpace].
    [rand k] is the value of the [k]-th call of [rand()] after
    [srand(time(NULL))]; [rand()] returns no negative number. *)
Fixpoint spawnFood_loop (rand : nat → nat) (n : nat) (i : Z) (k : nat)
    (len : Z) (counterSpace : list (Z * Z)) : M unit :=
  match n with
  | O => mret tt
  | S n' =>
      if len =? 0 then fail (Undefined DivisionByZero) else
      let ind := Z.rem (Z.of_nat (rand k)) len in
      match (if 0 <=? ind then counterSpace !! Z.to_nat ind else None) with
      | None => fail (Undefined ArrayIndex)
      | Some (x, y) =>
          write_board x y (spawn_code i);;
          spawnFood_loop rand n' (i + 1) (S k) (len - 1)
            (delete (Z.to_nat ind) counterSpace)
      end
  end.

Definition spawnFood (rand : nat → nat) (counterSpace : list (Z * Z)) : M unit :=
  spawnFood_loop rand 4 0 0 (Z.of_nat (length counterSpace)) counterSpace.

(** ** [Game::initBoard] *)

(** The twelve tuples pushed to [fillIn]. *)
Definition fillIn : list (Z * Z) :=
  [(0,1); (0,2); (0,3); (1,0); (2,0); (3,0);
   (4,1); (4,2); (4,3); (1,4); (2,4); (3,4)].

(** The test that guards [board[x][y] = 6]. *)
Definition side_square (x y : Z) : bool :=
  ((y =? 0) && ((0 <? x) && (x <? 4))) || ((y =? 4) && ((0 <? x) && (x <? 4))) ||
  ((x =? 0) && ((0 <? y) && (y <? 4))) || ((x =? 4) && ((0 <? y) && (y <? 4))).

Definition init_cells : M unit :=
  for_range 0 (Y board_size) (λ y,
    for_range 0 (X board_size) (λ x,
      if (x =? 2) && (y =? 2) then write_board x y 1
      else
        write_board x y 0;;
        if side_square x y then write_board x y 6 else mret tt)).

Definition init_meshes : M unit :=
  for_range 0 (X board_size) (λ i,
    for_range 0 (Y board_size) (λ j,
      val ← read_board i j;
      let ind := i * X board_size + j in
      (if val =? 1 then write_mesh ind (Some doll_mesh)
       else if (1 <? val) && (val <? 6) then
         if val =? 2 then write_mesh ind (Some j_mesh)
         else if val =? 3 then write_mesh ind (Some pb_mesh)
         else if val =? 4 then write_mesh ind (Some bread_mesh)
         else write_mesh ind (Some cube_mesh)
       else write_mesh ind None);;
      push_rotation)).

Definition initBoard (rand : nat → nat) : M unit :=
  set_chef {| X := 2; Y := 2 |};;
  init_cells;;
  spawnFood rand fillIn;;
  init_meshes.

(** ** [Game::getFood] *)

(** The square [getFood] looks at: [dir] 0 is the row above the chef
    ([chef.x-1]), 1 the row below ([chef.x+1]), 2 the column to the left
    ([chef.y-1]), anything else the column to the right ([chef.y+1]). *)
Definition target (dir : Z) (c : vec2) : Z * Z :=
  if dir =? 0 then (X c - 1, Y c)
  else if dir =? 1 then (X c + 1, Y c)
  else if dir =? 2 then (X c, Y c - 1)
  else (X c, Y c + 1).

(** What [getFood] does once it has read [item] from [board[x][y]]. *)
Definition getFood_item (rand : nat → nat) (x y item : Z) : M unit :=
  if (1 <? item) && (item <? 6) then
    if item =? 5 then
      w ← get_win;
      if PB w && J w && bread w then
        set_win {| PB := false; J := false; bread := false |};;
        initBoard rand
      else mret tt
    else
      w ← get_win;
      (if item =? 3 then set_win {| PB := true; J := J w; bread := bread w |}
       else if item =? 2 then set_win {| PB := PB w; J := true; bread := bread w |}
       else set_win {| PB := PB w; J := J w; bread := true |});;
      write_board x y 6;;
      write_mesh (X board_size * x + y) None
  else mret tt.

Definition getFood (rand : nat → nat) (dir : Z) : M unit :=
  c ← get_chef;
  let '(x, y) := target dir c in
  item ← read_board x y;
  getFood_item rand x y item.

(** ** [Game::handle_event] *)

Inductive SDL_EventType := SDL_KEYDOWN | SDL_KEYUP | SDL_OTHEREVENT.
Inductive SDL_Scancode :=
  | SDL_SCANCODE_UP | SDL_SCANCODE_DOWN | SDL_SCANCODE_LEFT | SDL_SCANCODE_RIGHT
  | SDL_SCANCODE_OTHER.

(** [evt.type], [evt.key.repeat], [evt.key.keysym.scancode]. *)
Record SDL_Event := {
  evt_type : SDL_EventType;
  key_repeat : Z;
  key_scancode : SDL_Scancode
}.

#[global] Instance SDL_EventType_eq_dec : EqDecision SDL_EventType.
Proof. solve_decision. Defined.
#[global] Instance SDL_Scancode_eq_dec : EqDecision SDL_Scancode.
Proof. solve_decision. Defined.

(** The block that moves the chef; the four arrow branches contain it
    with [chef.x += 1], [chef.x -= 1], [chef.y -= 1] and [chef.y += 1] in
    the place of [step]. *)
Definition move_chef (step : vec2 → vec2) : M unit :=
  c ← get_chef;
  write_board (X c) (Y c) 0;;
  write_mesh (X board_size * X c + Y c) None;;
  set_chef (step c);;
  c' ← get_chef;
  write_board (X c') (Y c') 1;;
  write_mesh (X board_size * X c' + Y c') (Some doll_mesh).

Definition x_plus_1 (c : vec2) : vec2 := {| X := X c + 1; Y := Y c |}.
Definition x_minus_1 (c : vec2) : vec2 := {| X := X c - 1; Y := Y c |}.
Definition y_minus_1 (c : vec2) : vec2 := {| X := X c; Y := Y c - 1 |}.
Definition y_plus_1 (c : vec2) : vec2 := {| X := X c; Y := Y c + 1 |}.

Definition when (b : bool) (m : M unit) : M unit := if b then m else mret tt.

Definition handle_event (rand : nat → nat) (evt : SDL_Event) : M bool :=
  if bool_decide (evt_type evt = SDL_KEYDOWN) && negb (key_repeat evt =? 0)
  then mret false
  else if bool_decide (evt_type evt = SDL_KEYDOWN) && (key_repeat evt =? 0) then
    match key_scancode evt with
    | SDL_SCANCODE_UP =>
        (c ← get_chef; when (X c =? 3) (getFood rand 1));;
        (c ← get_chef; when (X c <? 3) (move_chef x_plus_1));;
        mret true
    | SDL_SCANCODE_DOWN =>
        (c ← get_chef; when (X c =? 1) (getFood rand 0));;
        (c ← get_chef; when (1 <? X c) (move_chef x_minus_1));;
        mret true
    | SDL_SCANCODE_LEFT =>
        (c ← get_chef; when (Y c =? 1) (getFood rand 2));;
        (c ← get_chef; when (1 <? Y c) (move_chef y_minus_1));;
        mret true
    | SDL_SCANCODE_RIGHT =>
        (c ← get_chef; when (Y c =? 3) (getFood rand 3));;
        (c ← get_chef; when (Y c <? 3) (move_chef y_plus_1));;
        mret true
    | SDL_SCANCODE_OTHER => mret false
    end
  else mret false.

(** ** Sequences of calls *)

Inductive call :=
  | Initialize (rand : nat → nat)
  | Press (rand : nat → nat) (evt : SDL_Event).

Definition do_call (c : call) : M unit :=
  match c with
  | Initialize rand => initBoard rand
  | Press rand evt => _ ← handle_event rand evt; mret tt
  end.

Fixpoint run (cs : list call) : M unit :=
  match cs with
  | [] => mret tt
  | c :: cs' => do_call c;; run cs'
  end.

(** A key-down of an arrow key that is not an automatic repeat. *)
Definition arrow (k : SDL_Scancode) : SDL_Event :=
  {| evt_type := SDL_KEYDOWN; key_repeat := 0; key_scancode := k |}.

(** * Vocabulary of the properties *)

(** ** Arrays *)

(** A [board] of 5 rows of 5 entries. *)
Definition shape5 (b : list (list Z)) : Prop :=
  length b = 5%nat ∧ Forall (λ row, length row = 5%nat) b.

(** The arrays of a [Game] object have their sizes. *)
Definition storage_ok (g : Game) : Prop :=
  shape5 (board g) ∧ length (board_meshes g) = 25%nat.

(** The indices of [board]. *)
Definition in_grid (x y : Z) : Prop := 0 <= x < 5 ∧ 0 <= y < 5.

(** ** Draws and placements *)

(** The board after the first pair of loops of [initBoard]. *)
Definition init_grid : list (list Z) :=
  [[0; 6; 6; 6; 0]; [6; 0; 0; 0; 6]; [6; 0; 1; 0; 6]; [6; 0; 0; 0; 6]; [0; 6; 6; 6; 0]].

(** The cells [spawnFood] picks: the draw [k] takes the entry
    [rand() % len] of what is left of [counterSpace]. *)
Fixpoint draws (rand : nat → nat) (n k : nat) (cs : list (Z * Z)) : list (Z * Z) :=
  match n with
  | O => []
  | S n' =>
      let ind := (rand k mod length cs)%nat in
      match cs !! ind with
      | Some c => c :: draws rand n' (S k) (delete ind cs)
      | None => []
      end
  end.

(** Writing the codes of the draws [i], [i+1], ... to the picked cells. *)
Fixpoint place (b : list (list Z)) (i : Z) (picks : list (Z * Z)) : option (list (list Z)) :=
  match picks with
  | [] => Some b
  | (x, y) :: picks' => b' ← set_cell b x y (spawn_code i); place b' (i + 1) picks'
  end.

(** Candidate cells that are squares of the board. *)
Definition cells_in_grid (cs : list (Z * Z)) : Prop := Forall (λ c, in_grid c.1 c.2) cs.

(** ** Cells holding a code *)

(** The 25 coordinates of the board. *)
Definition all_cells : list (Z * Z) :=
  x ← seqZ 0 5; y ← seqZ 0 5; [(x, y)].

(** The cells of [b] that hold the code [v]. *)
Definition cells_holding (v : Z) (b : list (list Z)) : list (Z * Z) :=
  filter (λ c, get_cell b c.1 c.2 = Some v) all_cells.

(** ** Flags *)

(** The test of the win branch of [getFood]. *)
Definition win_all (w : Win) : bool := PB w && J w && bread w.

(** The flags as the win branch leaves them. *)
Definition no_flags : Win := {| PB := false; J := false; bread := false |}.

(** The flags after an item of code [item] was picked up. *)
Definition collect (item : Z) (w : Win) : Win :=
  if item =? 3 then {| PB := true; J := J w; bread := bread w |}
  else if item =? 2 then {| PB := PB w; J := true; bread := bread w |}
  else {| PB := PB w; J := J w; bread := true |}.

(** The three ingredients. *)
Definition collectible (item : Z) : Prop :=
  item = PeanutButter ∨ item = Jelly ∨ item = Bread.

(** The flag that belongs to an ingredient. *)
Definition flag_of (item : Z) (w : Win) : bool :=
  if item =? 3 then PB w else if item =? 2 then J w else bread w.

(** ** The invariant of play *)

(** The nine inner squares. *)
Definition interior (c : vec2) : Prop := 1 <= X c <= 3 ∧ 1 <= Y c <= 3.

(** The chef's square. *)
Definition pos (c : vec2) : Z * Z := (X c, Y c).

(** The arrays have their size, the chef stands on one of the nine inner
    squares, and the chef's square is the one square that holds 1. *)
Definition Inv (g : Game) : Prop :=
  storage_ok g ∧ interior (chef g) ∧
  cells_holding Character (board g) = [pos (chef g)].

(** ** Arrow keys *)

Definition is_arrow (k : SDL_Scancode) : bool :=
  match k with SDL_SCANCODE_OTHER => false | _ => true end.

(** The argument the branch of [k] passes to [getFood]. *)
Definition dir_of (k : SDL_Scancode) : Z :=
  match k with
  | SDL_SCANCODE_UP => 1
  | SDL_SCANCODE_DOWN => 0
  | SDL_SCANCODE_LEFT => 2
  | _ => 3
  end.

(** The update of [chef] in the branch of [k]. *)
Definition step_of (k : SDL_Scancode) : vec2 → vec2 :=
  match k with
  | SDL_SCANCODE_UP => x_plus_1
  | SDL_SCANCODE_DOWN => x_minus_1
  | SDL_SCANCODE_LEFT => y_minus_1
  | SDL_SCANCODE_RIGHT => y_plus_1
  | SDL_SCANCODE_OTHER => λ c, c
  end.

(** The test before [getFood]. *)
Definition edge (k : SDL_Scancode) (c : vec2) : bool :=
  match k with
  | SDL_SCANCODE_UP => X c =? 3
  | SDL_SCANCODE_DOWN => X c =? 1
  | SDL_SCANCODE_LEFT => Y c =? 1
  | SDL_SCANCODE_RIGHT => Y c =? 3
  | SDL_SCANCODE_OTHER => false
  end.

(** The test before the move. *)
Definition can (k : SDL_Scancode) (c : vec2) : bool :=
  match k with
  | SDL_SCANCODE_UP => X c <? 3
  | SDL_SCANCODE_DOWN => 1 <? X c
  | SDL_SCANCODE_LEFT => 1 <? Y c
  | SDL_SCANCODE_RIGHT => Y c <? 3
  | SDL_SCANCODE_OTHER => false
  end.

(** What is left of the branch of [k] after the call of [getFood]. *)
Definition then_move (k : SDL_Scancode) : M bool :=
  (c ← get_chef; when (can k c) (move_chef (step_of k)));; mret true.

(** The events that reach one of the four arrow branches. *)
Definition arrow_press (evt : SDL_Event) : bool :=
  bool_decide (evt_type evt = SDL_KEYDOWN) && (key_repeat evt =? 0) &&
  is_arrow (key_scancode evt).

(** ** Sample states *)

(** A [Game] object whose arrays hold nothing yet: the state in which the
    constructor calls [initBoard]. *)
Definition blank : Game :=
  {| board := replicate 5 (replicate 5 0);
     chef := {| X := 0; Y := 0 |};
     win := no_flags;
     board_meshes := replicate 25 None;
     board_rotations := [] |}.

(** [rand()] returning 0 at every call. *)
Definition rand0 : nat → nat := λ _, 0%nat.

(** The state a list of calls leaves. *)
Definition after (cs : list call) (g : Game) : Game :=
  match run cs g with
  | Done _ g' => g'
  | Failed _ g' => g'
  end.

(** The first round when every draw is 0: PB, J and bread on (0,1), (0,2),
    (0,3), the goal on (1,0). *)
Definition round0 : Game := after [Initialize rand0] blank.

(** The object of [blank] with the three flags set. *)
Definition blank_all_flags : Game :=
  with_win {| PB := true; J := true; bread := true |} blank.

(** A press of the arrow [k]. *)
Definition press (k : SDL_Scancode) : call := Press rand0 (arrow k).

(** In the round of [round0]: the three items were picked up and the chef
    stands on (1,1), next to the goal on (1,0). *)
Definition ready : Game :=
  after [Initialize rand0;
         press SDL_SCANCODE_DOWN; press SDL_SCANCODE_LEFT; press SDL_SCANCODE_DOWN;
         press SDL_SCANCODE_RIGHT; press SDL_SCANCODE_DOWN;
         press SDL_SCANCODE_RIGHT; press SDL_SCANCODE_DOWN;
         press SDL_SCANCODE_LEFT; press SDL_SCANCODE_LEFT] blank.

(** The round of [round0] after one press of the down arrow: the chef on
    (1,2), below the jelly on (0,2). *)
Definition below_jelly : Game := after [Initialize rand0; press SDL_SCANCODE_DOWN] blank.

(** The round of [round0] after one press of the up arrow: the chef on
    (3,2), next to the empty side square (4,2). *)
Definition at_side : Game := after [Initialize rand0; press SDL_SCANCODE_UP] blank.

(** [rand()] returning 3, 3, 3, 0: the placement of [round0] with the two
    indices of every square exchanged. *)
Definition rand_swapped : nat → nat := λ k, match k with 3%nat => 0%nat | _ => 3%nat end.

(** The first round with these draws. *)
Definition round_swapped : Game := after [Initialize rand_swapped] blank.

(** ** The board and the meshes in play *)

(** The mesh the last pair of loops of [initBoard] assigns to a cell
    that holds [val]: the doll for 1, [meshes[4]], [meshes[1]],
    [meshes[3]], [meshes[2]] for 2, 3, 4, 5, and [nullptr] otherwise. *)
Definition mesh_of_code (val : Z) : option Mesh :=
  if val =? 1 then Some doll_mesh
  else if (1 <? val) && (val <? 6) then
    if val =? 2 then Some j_mesh
    else if val =? 3 then Some pb_mesh
    else if val =? 4 then Some bread_mesh
    else Some cube_mesh
  else None.

(** Every slot of [board_meshes] holds the mesh of the code of its cell. *)
Definition mesh_sync (g : Game) : Prop :=
  ∀ x y v, get_cell (board g) x y = Some v →
           board_meshes g !! Z.to_nat (5 * x + y) = Some (mesh_of_code v).


(** The nine inner squares, as a test on indices. *)
Definition inner (x y : Z) : bool :=
  (1 <=? x) && (x <=? 3) && (1 <=? y) && (y <=? 3).

(** The codes a square can hold in play: an inner square 0 or 1, a side
    square an item, the goal or 6, a corner 0. *)
Definition layout (g : Game) : Prop :=
  ∀ x y v, get_cell (board g) x y = Some v →
    if inner x y then v = 0 ∨ v = 1
    else if side_square x y then 2 <= v <= 6
    else v = 0.

(** The states of play: [Inv], the layout, the meshes in step with the
    board, a rotation for every cell, one goal square and at most one
    square of each ingredient. *)
Definition Play (g : Game) : Prop :=
  Inv g ∧ layout g ∧ mesh_sync g ∧
  (25 ≤ length (board_rotations g))%nat ∧
  (∃ c, cells_holding Goal (board g) = [c]) ∧
  (∀ v, collectible v → (length (cells_holding v (board g)) ≤ 1)%nat).

(** The flags tell which ingredients are gone from the board. *)
Definition flags_mirror (g : Game) : Prop :=
  ∀ v, collectible v →
    if flag_of v (win g) then cells_holding v (board g) = []
    else ∃ c, cells_holding v (board g) = [c].

(** Calls of [handle_event] only. *)
Definition is_press (c : call) : bool :=
  match c with Press _ _ => true | Initialize _ => false end.

(** The arrow that undoes a move. *)
Definition opposite (k : SDL_Scancode) : SDL_Scancode :=
  match k with
  | SDL_SCANCODE_UP => SDL_SCANCODE_DOWN
  | SDL_SCANCODE_DOWN => SDL_SCANCODE_UP
  | SDL_SCANCODE_LEFT => SDL_SCANCODE_RIGHT
  | SDL_SCANCODE_RIGHT => SDL_SCANCODE_LEFT
  | SDL_SCANCODE_OTHER => SDL_SCANCODE_OTHER
  end.

(** No flag that was set is cleared. *)
Definition flags_le (w w' : Win) : Prop :=
  (PB w = true → PB w' = true) ∧ (J w = true → J w' = true) ∧
  (bread w = true → bread w' = true).

(** ** [Game::draw] *)

(** One call of [draw_mesh].  The matrix it is given is the translation to
    (x + 0.5, y + 0.5, z), with z = -0.5 for a tile and z = 0.0 for what
    stands on the tile, times the rotation of the cell; the call is
    recorded by the mesh, x, y, which z it has, and the rotation.  The
    projection [world_to_clip] and the uniforms of the shader are left
    out. *)
Record draw_call := {
  dc_mesh : Mesh;
  dc_x : Z;
  dc_y : Z;
  dc_on_tile : bool;
  dc_rotation : option quat
}.

#[global] Instance draw_call_eq_dec : EqDecision draw_call.
Proof. solve_decision. Defined.



(** ** Coordinates on the screen *)

(** The cell the spec writes (x, y), with x the axis along which the left
    and right arrows move the chef.  These arrows change [chef.y], the
    second index of [board], and [draw] shows [board[y][x]] in column x
    and row y: the cell (x, y) is [board[y][x]]. *)
Definition cell_at (g : Game) (x y : Z) : option Z := get_cell (board g) y x.

(** The indices [board[i][j]] as such a pair: (j, i). *)
Definition on_screen (c : Z * Z) : Z * Z := (c.2, c.1).

(** Where the chef is, as such a pair: ([chef.y], [chef.x]). *)
Definition character (g : Game) : Z * Z := on_screen (pos (chef g)).

(** ** The index of meshes read by the constructor *)

Module Blob.

(** An entry of the chunk [idx0]: four [uint32_t]. *)
Record IndexEntry := {
  name_begin : N;
  name_end : N;
  vertex_begin : N;
  vertex_end : N
}.

(** Modelled from the spec: the struct [Mesh], the handle of a visual
    asset, is declared in [Game.hpp]; [Game.cpp] assigns its fields
    [first] and [count] from the entry and passes them to [glDrawArrays].
    The fields hold the numbers assigned to them; the theorems that read
    them ask for fewer than 2^31 vertices, so that the numbers fit the
    fields whichever 32-bit integer type they have. *)
Record Mesh := { first : N; count : N }.

(** [std::runtime_error] with its message. *)
Inductive exception := runtime_error (what : string).

(** [std::string(names.begin() + b, names.begin() + e)]. *)
Definition name_of (names : string) (e : IndexEntry) : string :=
  String.substring (N.to_nat (name_begin e)) (N.to_nat (name_end e - name_begin e)) names.

(** The body of the loop over [index_entries]: the two checks, the mesh,
    and [index.insert], which does not replace an entry that is there.
    [names] is the chunk [str0], [vertices] the size of the chunk [dat0]. *)
Definition add_entry (names : string) (vertices : N)
    (index : gmap string Mesh) (e : IndexEntry) : exception + gmap string Mesh :=
  if (name_end e <? name_begin e)%N || (N.of_nat (String.length names) <? name_end e)%N
  then inl (runtime_error "invalid name indices in index.")
  else if (vertex_end e <? vertex_begin e)%N || (vertices <? vertex_end e)%N
  then inl (runtime_error "invalid vertex indices in index.")
  else
    let mesh := {| first := vertex_begin e;
                   count := (vertex_end e - vertex_begin e)%N |} in
    match index !! name_of names e with
    | Some _ => inl (runtime_error "duplicate name in index.")
    | None => inr (<[name_of names e := mesh]> index)
    end.

(** The loop, from the map [index] on. *)
Fixpoint add_entries (names : string) (vertices : N) (index : gmap string Mesh)
    (index_entries : list IndexEntry) : exception + gmap string Mesh :=
  match index_entries with
  | [] => inr index
  | e :: rest =>
      match add_entry names vertices index e with
      | inl ex => inl ex
      | inr index' => add_entries names vertices index' rest
      end
  end.

(** The lambda [lookup]. *)
Definition lookup (index : gmap string Mesh) (name : string) : exception + Mesh :=
  match index !! name with
  | Some m => inr m
  | None => inl (runtime_error ("Mesh named '" +:+ name +:+ "' does not appear in index."))
  end.

(** The six meshes of [Game]. *)
Record Meshes := {
  tile_mesh : Mesh; doll_mesh : Mesh; bread_mesh : Mesh;
  pb_mesh : Mesh; j_mesh : Mesh; cube_mesh : Mesh
}.

(** The block of the constructor that builds the index and looks the six
    meshes up, in the order of the source. *)
Definition load_meshes (names : string) (vertices : N)
    (index_entries : list IndexEntry) : exception + Meshes :=
  match add_entries names vertices ∅ index_entries with
  | inl ex => inl ex
  | inr index =>
      match lookup index "Tile" with inl ex => inl ex | inr tile =>
      match lookup index "Doll" with inl ex => inl ex | inr doll =>
      match lookup index "bread" with inl ex => inl ex | inr bread =>
      match lookup index "PB" with inl ex => inl ex | inr pb =>
      match lookup index "J" with inl ex => inl ex | inr j =>
      match lookup index "Cube" with inl ex => inl ex | inr cube =>
      inr {| tile_mesh := tile; doll_mesh := doll; bread_mesh := bread;
             pb_mesh := pb; j_mesh := j; cube_mesh := cube |}
      end end end end end end
  end.

(** An entry that passes the two checks of [add_entry]. *)
Definition valid (names : string) (vertices : N) (e : IndexEntry) : Prop :=
  (name_begin e <= name_end e)%N ∧ (name_end e <= N.of_nat (String.length names))%N ∧
  (vertex_begin e <= vertex_end e)%N ∧ (vertex_end e <= vertices)%N.

(** The mesh [add_entry] makes of an entry. *)
Definition mesh_of (e : IndexEntry) : Mesh :=
  {| first := vertex_begin e; count := (vertex_end e - vertex_begin e)%N |}.

(** Some entry of [es] has the name [n] and makes the mesh [m]. *)
Definition entry_named (names : string) (es : list IndexEntry)
    (n : string) (m : Mesh) : Prop :=
  ∃ e, e ∈ es ∧ name_of names e = n ∧ mesh_of e = m.

(** [index.insert] of the mesh of an entry under its name. *)
Definition put (names : string) (m : gmap string Mesh) (e : IndexEntry) :
    gmap string Mesh :=
  <[name_of names e := mesh_of e]> m.

(** A sample of the chunks: six names in [str0], six entries. *)
Definition sample_names : string := "TileDollbreadPBJCube".
Definition sample_entries : list IndexEntry :=
  [ {| name_begin := 0; name_end := 4; vertex_begin := 0; vertex_end := 6 |};
    {| name_begin := 4; name_end := 8; vertex_begin := 6; vertex_end := 30 |};
    {| name_begin := 8; name_end := 13; vertex_begin := 30; vertex_end := 42 |};
    {| name_begin := 13; name_end := 15; vertex_begin := 42; vertex_end := 48 |};
    {| name_begin := 15; name_end := 16; vertex_begin := 48; vertex_end := 60 |};
    {| name_begin := 16; name_end := 20; vertex_begin := 60; vertex_end := 96 |} ]%N.

End Blob.

(** ** Playing a round to its end *)

(** Presses of arrow keys, [rand] being what [rand()] returns if one of
    them wins the round. *)
Definition presses (rand : nat → nat) (ks : list SDL_Scancode) : list call :=
  (λ k, Press rand (arrow k)) <$> ks.

(** The arrows that take the chef from one inner square to another:
    along [chef.x] first, then along [chef.y]. *)
Definition walk (c q : vec2) : list SDL_Scancode :=
  replicate (Z.to_nat (X q - X c)) SDL_SCANCODE_UP ++
  replicate (Z.to_nat (X c - X q)) SDL_SCANCODE_DOWN ++
  replicate (Z.to_nat (Y q - Y c)) SDL_SCANCODE_RIGHT ++
  replicate (Z.to_nat (Y c - Y q)) SDL_SCANCODE_LEFT.

(** The inner square next to a side square, and the arrow that points
    from it to the side square. *)
Definition approach (s : Z * Z) : vec2 * SDL_Scancode :=
  if s.1 =? 0 then ({| X := 1; Y := s.2 |}, SDL_SCANCODE_DOWN)
  else if s.1 =? 4 then ({| X := 3; Y := s.2 |}, SDL_SCANCODE_UP)
  else if s.2 =? 0 then ({| X := s.1; Y := 1 |}, SDL_SCANCODE_LEFT)
  else ({| X := s.1; Y := 3 |}, SDL_SCANCODE_RIGHT).

(** The arrows that take the chef from [c] to the side square [s] and
    press against it; the chef is then on [(approach s).1]. *)
Definition visit (c : vec2) (s : Z * Z) : list SDL_Scancode :=
  walk c (approach s).1 ++ [(approach s).2].

(** The arrows that pick up the ingredients on [c0], [c1], [c2] and then
    press against the goal on [c3], from the square (2,2). *)
Definition winning_keys (c0 c1 c2 c3 : Z * Z) : list SDL_Scancode :=
  visit {| X := 2; Y := 2 |} c0 ++ visit (approach c0).1 c1 ++
  visit (approach c1).1 c2 ++ visit (approach c2).1 c3.

(** The flags, the rotations and the squares of the items are the same. *)
Definition same_items (g g' : Game) : Prop :=
  win g' = win g ∧ board_rotations g' = board_rotations g ∧
  ∀ v, 2 <= v → cells_holding v (board g') = cells_holding v (board g).

(** * Properties *)

(** ** Arrays *)

Lemma set_cell_inv b x y v b' :
  set_cell b x y v = Some b' →
  0 <= x ∧ 0 <= y ∧ ∃ row old,
    b !! Z.to_nat x = Some row ∧ row !! Z.to_nat y = Some old ∧
    b' = <[Z.to_nat x := <[Z.to_nat y := v]> row]> b.
Proof.
  unfold set_cell. destruct (0 <=? x) eqn:Hx, (0 <=? y) eqn:Hy; simpl; try discriminate.
  destruct (b !! Z.to_nat x) as [row|] eqn:Hrow; simpl; [|discriminate].
  destruct (row !! Z.to_nat y) as [old|] eqn:Hold; simpl; [|discriminate].
  intros [= <-]. repeat split; [lia..|]. eauto.
Qed.

Lemma get_set_cell b x y v b' :
  set_cell b x y v = Some b' →
  ∀ x' y', get_cell b' x' y' =
    if decide (x' = x ∧ y' = y) then Some v else get_cell b x' y'.
Proof.
  intros (Hx & Hy & row & old & Hrow & Hold & ->)%set_cell_inv x' y'.
  unfold get_cell.
  destruct (0 <=? x') eqn:Hx', (0 <=? y') eqn:Hy'; simpl;
    try (case_decide; [lia | reflexivity]).
  apply Z.leb_le in Hx', Hy'.
  destruct (decide (x' = x)) as [->|Hne].
  - rewrite list_lookup_insert_eq by (eapply lookup_lt_Some; eassumption).
    rewrite Hrow. simpl.
    destruct (decide (y' = y)) as [->|Hney].
    + rewrite list_lookup_insert_eq by (eapply lookup_lt_Some; eassumption).
      case_decide; [reflexivity | tauto].
    + rewrite list_lookup_insert_ne by lia.
      case_decide; [tauto | reflexivity].
  - rewrite list_lookup_insert_ne by lia.
    case_decide; [tauto | reflexivity].
Qed.

Lemma set_cell_shape b x y v b' :
  shape5 b → set_cell b x y v = Some b' → shape5 b'.
Proof.
  intros [Hlen Hrows] (_ & _ & row & old & Hrow & _ & ->)%set_cell_inv.
  split.
  - by rewrite length_insert.
  - apply Forall_insert; [assumption|].
    rewrite length_insert.
    eapply (Forall_lookup_1 _ _ _ _ Hrows Hrow).
Qed.

Lemma get_cell_Some b x y :
  shape5 b → in_grid x y → is_Some (get_cell b x y).
Proof.
  intros [Hlen Hrows] [Hx Hy]. unfold get_cell.
  replace ((0 <=? x) && (0 <=? y)) with true by (symmetry; apply andb_true_iff; lia).
  destruct (lookup_lt_is_Some_2 b (Z.to_nat x)) as [row Hrow]; [lia|].
  rewrite Hrow. simpl. apply lookup_lt_is_Some_2.
  rewrite (Forall_lookup_1 _ _ _ _ Hrows Hrow). lia.
Qed.

Lemma get_cell_in_grid b x y v :
  shape5 b → get_cell b x y = Some v → in_grid x y.
Proof.
  intros [Hlen Hrows]. unfold get_cell.
  destruct (0 <=? x) eqn:Hx, (0 <=? y) eqn:Hy; simpl; try discriminate.
  destruct (b !! Z.to_nat x) as [row|] eqn:Hrow; simpl; [|discriminate].
  intros Hv. apply lookup_lt_Some in Hv.
  rewrite (Forall_lookup_1 _ _ _ _ Hrows Hrow) in Hv.
  apply lookup_lt_Some in Hrow.
  unfold in_grid. lia.
Qed.

Lemma set_cell_Some b x y v :
  shape5 b → in_grid x y → is_Some (set_cell b x y v).
Proof.
  intros [Hlen Hrows] [Hx Hy]. unfold set_cell.
  replace ((0 <=? x) && (0 <=? y)) with true by (symmetry; apply andb_true_iff; lia).
  destruct (lookup_lt_is_Some_2 b (Z.to_nat x)) as [row Hrow]; [lia|].
  rewrite Hrow. simpl.
  destruct (lookup_lt_is_Some_2 row (Z.to_nat y)) as [old Hold].
  { rewrite (Forall_lookup_1 _ _ _ _ Hrows Hrow). lia. }
  rewrite Hold. simpl. eauto.
Qed.

Lemma set_slot_Some {A} (l : list A) i a :
  0 <= i < Z.of_nat (length l) →
  ∃ l', set_slot l i a = Some l' ∧ length l' = length l.
Proof.
  intros Hi. unfold set_slot.
  replace (0 <=? i) with true by (symmetry; apply Z.leb_le; lia).
  destruct (lookup_lt_is_Some_2 l (Z.to_nat i)) as [old Hold]; [lia|].
  rewrite Hold. simpl. eexists. split; [reflexivity|]. by rewrite length_insert.
Qed.

(** ** Steps of the monad *)

Lemma bind_Done {A B} (m : M A) (f : A → M B) g a g' :
  m g = Done a g' → (m ≫= f) g = f a g'.
Proof. unfold mbind, M_bind. by intros ->. Qed.


Lemma read_board_Done x y g :
  shape5 (board g) → in_grid x y →
  ∃ v, get_cell (board g) x y = Some v ∧ read_board x y g = Done v g.
Proof.
  intros Hs Hin. destruct (get_cell_Some _ _ _ Hs Hin) as [v Hv].
  exists v. unfold read_board. by rewrite Hv.
Qed.

Lemma write_board_Done x y v g :
  shape5 (board g) → in_grid x y →
  ∃ b, set_cell (board g) x y v = Some b ∧ shape5 b ∧
       write_board x y v g = Done tt (with_board b g).
Proof.
  intros Hs Hin. destruct (set_cell_Some _ _ _ v Hs Hin) as [b Hb].
  exists b. unfold write_board. rewrite Hb. eauto using set_cell_shape.
Qed.

Lemma write_mesh_Done ind m g :
  length (board_meshes g) = 25%nat → 0 <= ind < 25 →
  ∃ ms, set_slot (board_meshes g) ind m = Some ms ∧ length ms = 25%nat ∧
        write_mesh ind m g = Done tt (with_meshes ms g).
Proof.
  intros Hl Hi. destruct (set_slot_Some (board_meshes g) ind m) as (ms & Hms & Hlen); [lia|].
  exists ms. unfold write_mesh. rewrite Hms. split_and!; [done | congruence | done].
Qed.

(** A loop whose body keeps [P] and returns, keeps [P] and returns. *)
Lemma for_loop_keeps (P : Game → Prop) body n lo g :
  (∀ i g0, lo <= i < lo + Z.of_nat n → P g0 → ∃ g1, body i g0 = Done tt g1 ∧ P g1) →
  P g → ∃ g', for_loop n lo body g = Done tt g' ∧ P g'.
Proof.
  revert lo g. induction n as [|n IH]; intros lo g Hbody HP; simpl.
  - by exists g.
  - destruct (Hbody lo g) as (g1 & Hg1 & HP1); [lia | done |].
    rewrite (bind_Done _ _ _ _ _ Hg1).
    apply IH; [|done]. intros i g0 Hi. apply Hbody. lia.
Qed.

(** ** [initBoard]: the cells *)

Lemma shape5_inv b :
  shape5 b → ∃ r0 r1 r2 r3 r4, b = [r0; r1; r2; r3; r4] ∧
    Forall (λ row, ∃ a0 a1 a2 a3 a4, row = [a0; a1; a2; a3; a4]) [r0; r1; r2; r3; r4].
Proof.
  intros [Hlen Hrows].
  destruct b as [|r0 [|r1 [|r2 [|r3 [|r4 [|]]]]]]; try discriminate.
  exists r0, r1, r2, r3, r4. split; [done|].
  eapply List.Forall_impl; [|exact Hrows]. intros row Hrow. simpl in Hrow.
  destruct row as [|a0 [|a1 [|a2 [|a3 [|a4 [|]]]]]]; try discriminate. eauto 6.
Qed.

Lemma init_cells_spec g :
  shape5 (board g) → init_cells g = Done tt (with_board init_grid g).
Proof.
  intros (r0 & r1 & r2 & r3 & r4 & Hb & Hrows)%shape5_inv.
  destruct g as [b c w ms rs]. simpl in Hb. subst b.
  do 5 (apply Forall_cons_1 in Hrows as [(? & ? & ? & ? & ? & ?) Hrows]).
  subst. reflexivity.
Qed.

Lemma init_grid_shape : shape5 init_grid.
Proof. split; [done | by repeat constructor]. Qed.

(** ** [spawnFood] *)

Lemma draws_perm rand n k cs : ∃ rest, cs ≡ₚ draws rand n k cs ++ rest.
Proof.
  revert k cs. induction n as [|n IH]; intros k cs; simpl.
  - by exists cs.
  - destruct (cs !! _) as [c|] eqn:Hc; [|by exists cs].
    destruct (IH (S k) (delete (rand k mod length cs)%nat cs)) as [rest Hrest].
    exists rest. simpl. rewrite <- Hrest. by apply delete_Permutation.
Qed.

Lemma draws_length rand n k cs :
  length (draws rand n k cs) = (n `min` length cs)%nat.
Proof.
  revert k cs. induction n as [|n IH]; intros k cs; simpl; [done|].
  destruct cs as [|c0 cs0] eqn:Hcs; [done|]. rewrite <- Hcs.
  assert (Hlt : (rand k mod length cs < length cs)%nat).
  { apply Nat.mod_upper_bound. by subst cs. }
  destruct (lookup_lt_is_Some_2 _ _ Hlt) as [c Hc]. rewrite Hc. simpl.
  rewrite IH, length_delete by eauto. subst cs. simpl in *. lia.
Qed.

Lemma draws_NoDup rand n k cs : NoDup cs → NoDup (draws rand n k cs).
Proof.
  intros Hnd. destruct (draws_perm rand n k cs) as [rest Hrest].
  rewrite Hrest in Hnd. by apply list.NoDup_app in Hnd as [? _].
Qed.

Lemma draws_subseteq rand n k cs c : c ∈ draws rand n k cs → c ∈ cs.
Proof.
  intros Hc. destruct (draws_perm rand n k cs) as [rest Hrest].
  rewrite Hrest. apply elem_of_app. by left.
Qed.

Lemma draws_all rand n k cs : (length cs ≤ n)%nat → cs ≡ₚ draws rand n k cs.
Proof.
  intros Hn. destruct (draws_perm rand n k cs) as [rest Hrest].
  assert (Hlen := draws_length rand n k cs).
  pose proof (Permutation_length Hrest) as Hl. rewrite length_app in Hl.
  destruct rest; [by rewrite app_nil_r in Hrest|]. simpl in Hl. lia.
Qed.

(** The loop of [spawnFood] writes the draws in order; it returns when at
    least [n] cells are at hand and otherwise stops at [rand() % 0], after
    the cells it was given have been written. *)
Lemma spawnFood_loop_spec rand n i k cs g :
  cells_in_grid cs → shape5 (board g) →
  ∃ b', place (board g) i (draws rand n k cs) = Some b' ∧ shape5 b' ∧
    spawnFood_loop rand n i k (Z.of_nat (length cs)) cs g =
      if decide (n ≤ length cs)%nat then Done tt (with_board b' g)
      else Failed (Undefined DivisionByZero) (with_board b' g).
Proof.
  revert i k cs g. induction n as [|n IH]; intros i k cs g Hcs Hs.
  - exists (board g). split_and!; [done..|].
    case_decide; [|lia]. by destruct g.
  - cbn [spawnFood_loop draws]. destruct cs as [|c0 cs0] eqn:Ecs.
    { exists (board g). split_and!; [done..|].
      case_decide; [simpl in *; lia|]. by destruct g. }
    rewrite <- Ecs in *.
    assert (Hpos : (0 < length cs)%nat) by (subst cs; simpl; lia).
    replace (Z.of_nat (length cs) =? 0) with false by (symmetry; apply Z.eqb_neq; lia).
    rewrite Z.rem_mod_nonneg by lia.
    rewrite <- Nat2Z.inj_mod.
    replace (0 <=? Z.of_nat _) with true by (symmetry; apply Z.leb_le; lia).
    rewrite Nat2Z.id.
    set (ind := (rand k mod length cs)%nat).
    assert (Hlt : (ind < length cs)%nat) by (apply Nat.mod_upper_bound; lia).
    destruct (lookup_lt_is_Some_2 _ _ Hlt) as [[x y] Hc]. rewrite Hc.
    assert (Hin : in_grid x y).
    { apply (Forall_lookup_1 _ _ _ _ Hcs Hc). }
    destruct (write_board_Done x y (spawn_code i) g Hs Hin) as (b1 & Hb1 & Hs1 & Hw).
    rewrite (bind_Done _ _ _ _ _ Hw).
    destruct (IH (i + 1) (S k) (delete ind cs) (with_board b1 g)) as (b' & Hb' & Hs' & Hloop).
    { unfold cells_in_grid in *. rewrite (delete_Permutation _ _ _ Hc) in Hcs.
      by apply Forall_cons_1 in Hcs as [_ ?]. }
    { done. }
    exists b'. simpl. rewrite Hb1. simpl. split_and!; [done..|].
    rewrite length_delete in Hloop by eauto.
    replace (Z.of_nat (length cs) - 1) with (Z.of_nat (length cs - 1)) by lia.
    rewrite Hloop. simpl.
    destruct (decide (n ≤ length cs - 1)%nat), (decide (S n ≤ length cs)%nat);
      try lia; reflexivity.
Qed.

Lemma spawnFood_spec rand cs g :
  cells_in_grid cs → shape5 (board g) →
  ∃ b', place (board g) 0 (draws rand 4 0 cs) = Some b' ∧ shape5 b' ∧
    spawnFood rand cs g =
      if decide (4 ≤ length cs)%nat then Done tt (with_board b' g)
      else Failed (Undefined DivisionByZero) (with_board b' g).
Proof. apply spawnFood_loop_spec. Qed.

Lemma fillIn_in_grid : cells_in_grid fillIn.
Proof. unfold cells_in_grid, fillIn, in_grid. repeat constructor; simpl; lia. Qed.

Lemma fillIn_NoDup : NoDup fillIn.
Proof. apply (bool_decide_unpack _). vm_compute. exact I. Qed.

(** ** [initBoard]: the meshes *)

Lemma init_meshes_spec g :
  storage_ok g →
  ∃ ms rs, init_meshes g = Done tt (with_rotations rs (with_meshes ms g)) ∧
           length ms = 25%nat.
Proof.
  intros [Hs Hm].
  set (P := λ g', ∃ ms rs, g' = with_rotations rs (with_meshes ms g) ∧ length ms = 25%nat).
  assert (HP : P g) by (exists (board_meshes g), (board_rotations g); by destruct g).
  destruct (for_loop_keeps P
    (λ i, for_range 0 (Y board_size) (λ j,
      val ← read_board i j;
      let ind := i * X board_size + j in
      (if val =? 1 then write_mesh ind (Some doll_mesh)
       else if (1 <? val) && (val <? 6) then
         if val =? 2 then write_mesh ind (Some j_mesh)
         else if val =? 3 then write_mesh ind (Some pb_mesh)
         else if val =? 4 then write_mesh ind (Some bread_mesh)
         else write_mesh ind (Some cube_mesh)
       else write_mesh ind None);;
      push_rotation)) 5 0 g) as (g' & Hg' & ms & rs & -> & Hlen); [|exact HP|by eauto].
  intros i g0 Hi HP0. apply (for_loop_keeps P); [|exact HP0].
  clear g0 HP0. intros j g0 Hj (ms & rs & -> & Hlen).
  change (Z.to_nat (Y board_size - 0)) with 5%nat in Hj.
  destruct (read_board_Done i j (with_rotations rs (with_meshes ms g)))
    as (v & _ & Hv); [done | split; lia |].
  rewrite (bind_Done _ _ _ _ _ Hv). simpl.
  set (g0 := with_rotations rs (with_meshes ms g)).
  assert (Hw : ∀ m, ∃ g1, (write_mesh (i * 5 + j) m;; push_rotation) g0 = Done tt g1 ∧ P g1).
  { intros m. destruct (write_mesh_Done (i * 5 + j) m g0) as (ms' & _ & Hlen' & Hw);
      [done | lia |].
    rewrite (bind_Done _ _ _ _ _ Hw). eexists. split; [reflexivity|].
    exists ms', (rs ++ [quat_identity]). by destruct g. }
  repeat match goal with |- context [if ?c then _ else _] => destruct c end; apply Hw.
Qed.

Lemma initBoard_spec rand g :
  storage_ok g →
  ∃ b ms rs,
    initBoard rand g =
      Done tt {| board := b; chef := {| X := 2; Y := 2 |}; win := win g;
                 board_meshes := ms; board_rotations := rs |} ∧
    place init_grid 0 (draws rand 4 0 fillIn) = Some b ∧
    shape5 b ∧ length ms = 25%nat.
Proof.
  intros [Hs Hm]. unfold initBoard.
  rewrite (bind_Done _ _ g tt (with_chef {| X := 2; Y := 2 |} g)) by reflexivity.
  cbv beta. rewrite (bind_Done _ _ _ _ _ (init_cells_spec (with_chef _ g) Hs)). cbv beta.
  destruct (spawnFood_spec rand fillIn
    (with_board init_grid (with_chef {| X := 2; Y := 2 |} g)))
    as (b & Hb & Hsb & Hspawn); [apply fillIn_in_grid | apply init_grid_shape |].
  rewrite decide_True in Hspawn by (simpl; lia).
  rewrite (bind_Done _ _ _ _ _ Hspawn). cbv beta.
  destruct (init_meshes_spec
    (with_board b (with_board init_grid (with_chef {| X := 2; Y := 2 |} g))))
    as (ms & rs & Hmesh & Hlen); [by split|].
  exists b, ms, rs. rewrite Hmesh. by split_and!.
Qed.

(** ** Cells holding a code *)

Ltac grid_cases x y H :=
  let Hx := fresh in let Hy := fresh in
  assert (Hx : x = 0 ∨ x = 1 ∨ x = 2 ∨ x = 3 ∨ x = 4) by (unfold in_grid in H; lia);
  assert (Hy : y = 0 ∨ y = 1 ∨ y = 2 ∨ y = 3 ∨ y = 4) by (unfold in_grid in H; lia);
  destruct_or! Hx; destruct_or! Hy; subst x y.

Lemma all_cells_NoDup : NoDup all_cells.
Proof. apply (bool_decide_unpack _). vm_compute. exact I. Qed.

Lemma elem_of_all_cells x y : in_grid x y → (x, y) ∈ all_cells.
Proof.
  intros H. grid_cases x y H; apply (bool_decide_unpack _); vm_compute; exact I.
Qed.

Lemma filter_none {A} (P : A → Prop) `{∀ x, Decision (P x)} (l : list A) :
  (∀ x, x ∈ l → ¬ P x) → filter P l = [].
Proof.
  induction l as [|a l IH]; intros Hl; [done|].
  rewrite filter_cons_False by (apply Hl; left).
  apply IH. intros x Hx. apply Hl. by right.
Qed.

Lemma filter_singleton {A} (P : A → Prop) `{∀ x, Decision (P x)} (l : list A) c :
  NoDup l → c ∈ l → (∀ x, x ∈ l → (P x ↔ x = c)) → filter P l = [c].
Proof.
  induction l as [|a l IH]; intros Hnd Hc HP; [by apply elem_of_nil in Hc|].
  apply list.NoDup_cons in Hnd as [Ha Hnd].
  assert (Hl : ∀ x, x ∈ l → (P x ↔ x = c)) by (intros x Hx; apply HP; by right).
  apply elem_of_cons in Hc as [->|Hc].
  - rewrite filter_cons_True by (apply HP; [left | done]).
    f_equal. apply filter_none. intros x Hx HPx. apply Hl in HPx; [|done]. by subst x.
  - rewrite filter_cons_False; [by apply IH|].
    intros HPa. apply HP in HPa; [|left]. by subst a.
Qed.

Lemma cells_holding_singleton b v c :
  in_grid c.1 c.2 → (∀ x y, get_cell b x y = Some v ↔ (x, y) = c) →
  cells_holding v b = [c].
Proof.
  intros Hc Hb. apply filter_singleton.
  - apply all_cells_NoDup.
  - destruct c. by apply elem_of_all_cells.
  - intros [x y] _. apply Hb.
Qed.

Lemma cells_holding_none b v :
  (∀ x y, get_cell b x y ≠ Some v) → cells_holding v b = [].
Proof. intros Hb. apply filter_none. intros [x y] _. apply Hb. Qed.

(** ** Where [initBoard] puts the items *)

Lemma place4_get b c0 c1 c2 c3 b' :
  place b 0 [c0; c1; c2; c3] = Some b' →
  ∀ x y, get_cell b' x y =
    if decide ((x, y) = c3) then Some 5
    else if decide ((x, y) = c2) then Some 4
    else if decide ((x, y) = c1) then Some 2
    else if decide ((x, y) = c0) then Some 3
    else get_cell b x y.
Proof.
  destruct c0 as [x0 y0], c1 as [x1 y1], c2 as [x2 y2], c3 as [x3 y3]. simpl.
  destruct (set_cell b _ _ _) as [b0|] eqn:H0; [simpl|discriminate].
  destruct (set_cell b0 _ _ _) as [b1|] eqn:H1; [simpl|discriminate].
  destruct (set_cell b1 _ _ _) as [b2|] eqn:H2; [simpl|discriminate].
  destruct (set_cell b2 _ _ _) as [b3|] eqn:H3; [simpl|discriminate].
  intros [= <-] x y.
  rewrite (get_set_cell _ _ _ _ _ H3), (get_set_cell _ _ _ _ _ H2),
    (get_set_cell _ _ _ _ _ H1), (get_set_cell _ _ _ _ _ H0).
  repeat case_decide; try reflexivity; exfalso; simplify_eq; intuition congruence.
Qed.

Lemma init_grid_codes x y v :
  get_cell init_grid x y = Some v →
  v = 0 ∨ (v = 1 ∧ (x, y) = (2, 2)) ∨ v = 6.
Proof.
  intros Hv. assert (Hin := get_cell_in_grid _ _ _ _ init_grid_shape Hv).
  grid_cases x y Hin; vm_compute in Hv; simplify_eq; auto.
Qed.

Lemma init_grid_chef : get_cell init_grid 2 2 = Some 1.
Proof. reflexivity. Qed.

Lemma fillIn_cell c :
  c ∈ fillIn → in_grid c.1 c.2 ∧ c ≠ (2, 2) ∧ get_cell init_grid c.1 c.2 = Some 6.
Proof.
  unfold fillIn. intros H.
  repeat (apply elem_of_cons in H as [->|H]);
    [split_and!; [unfold in_grid; simpl; lia | discriminate | reflexivity] ..|].
  by apply elem_of_nil in H.
Qed.

Lemma NoDup4 {A} (a b c d : A) :
  NoDup [a; b; c; d] → a ≠ b ∧ a ≠ c ∧ a ≠ d ∧ b ≠ c ∧ b ≠ d ∧ c ≠ d.
Proof.
  rewrite !list.NoDup_cons, !not_elem_of_cons. tauto.
Qed.

(** The four draws of [initBoard]: four cells of [fillIn], no two the same. *)
Lemma draws_fillIn rand :
  ∃ c0 c1 c2 c3, draws rand 4 0 fillIn = [c0; c1; c2; c3] ∧
    NoDup [c0; c1; c2; c3] ∧ ∀ c, c ∈ [c0; c1; c2; c3] → c ∈ fillIn.
Proof.
  assert (Hlen := draws_length rand 4 0 fillIn).
  assert (Hnd := draws_NoDup rand 4 0 fillIn fillIn_NoDup).
  assert (Hsub := draws_subseteq rand 4 0 fillIn).
  destruct (draws rand 4 0 fillIn) as [|c0 [|c1 [|c2 [|c3 [|]]]]]; try discriminate.
  by exists c0, c1, c2, c3.
Qed.

(** The board [initBoard] leaves, cell by cell. *)
Lemma initBoard_cells c0 c1 c2 c3 b :
  NoDup [c0; c1; c2; c3] → (∀ c, c ∈ [c0; c1; c2; c3] → c ∈ fillIn) →
  place init_grid 0 [c0; c1; c2; c3] = Some b →
  cells_holding 3 b = [c0] ∧ cells_holding 2 b = [c1] ∧
  cells_holding 4 b = [c2] ∧ cells_holding 5 b = [c3] ∧
  cells_holding 1 b = [(2, 2)].
Proof.
  intros (N01 & N02 & N03 & N12 & N13 & N23)%NoDup4 Hsub Hb.
  assert (Hget := place4_get _ _ _ _ _ _ Hb).
  assert (H0 : c0 ∈ fillIn) by (apply Hsub; repeat constructor).
  assert (H1 : c1 ∈ fillIn) by (apply Hsub; repeat constructor).
  assert (H2 : c2 ∈ fillIn) by (apply Hsub; repeat constructor).
  assert (H3 : c3 ∈ fillIn) by (apply Hsub; repeat constructor).
  apply fillIn_cell in H0 as (I0 & M0 & _), H1 as (I1 & M1 & _),
    H2 as (I2 & M2 & _), H3 as (I3 & M3 & _).
  split_and!; (apply cells_holding_singleton; [done || (unfold in_grid; simpl; lia)|]);
    intros x y; rewrite Hget; repeat case_decide; subst;
    (split; [intros Hv | intros Hv; try congruence]);
    try congruence; try reflexivity;
    try (apply init_grid_codes in Hv as [Hv|[[Hv ?]|Hv]]; congruence).
  by simplify_eq.
Qed.

(** ** [getFood] *)

Lemma getFood_read rand dir g x y :
  target dir (chef g) = (x, y) → shape5 (board g) → in_grid x y →
  ∃ item, get_cell (board g) x y = Some item ∧
          getFood rand dir g = getFood_item rand x y item g.
Proof.
  intros Ht Hs Hin. destruct (read_board_Done x y g Hs Hin) as (item & Hget & Hread).
  exists item. split; [done|]. unfold getFood.
  rewrite (bind_Done get_chef _ g (chef g) g eq_refl). cbv beta. rewrite Ht.
  by rewrite (bind_Done _ _ _ _ _ Hread).
Qed.

Lemma getFood_item_goal_win rand x y g :
  win_all (win g) = true →
  getFood_item rand x y 5 g = initBoard rand (with_win no_flags g).
Proof.
  intros Hw. unfold getFood_item. simpl.
  rewrite (bind_Done get_win _ g (win g) g eq_refl). cbv beta.
  fold (win_all (win g)). rewrite Hw. reflexivity.
Qed.

Lemma getFood_item_goal_locked rand x y g :
  win_all (win g) = false → getFood_item rand x y 5 g = Done tt g.
Proof.
  intros Hw. unfold getFood_item. simpl.
  rewrite (bind_Done get_win _ g (win g) g eq_refl). cbv beta.
  fold (win_all (win g)). rewrite Hw. reflexivity.
Qed.

Lemma getFood_item_other rand x y item g :
  ¬ 1 < item < 6 → getFood_item rand x y item g = Done tt g.
Proof.
  intros Hi. unfold getFood_item.
  replace ((1 <? item) && (item <? 6)) with false; [done|].
  symmetry. apply andb_false_iff. rewrite !Z.ltb_ge. lia.
Qed.

Lemma getFood_item_collect rand x y item g :
  collectible item → storage_ok g → in_grid x y →
  ∃ b ms, set_cell (board g) x y 6 = Some b ∧
          set_slot (board_meshes g) (5 * x + y) None = Some ms ∧
          getFood_item rand x y item g =
            Done tt {| board := b; chef := chef g; win := collect item (win g);
                       board_meshes := ms; board_rotations := board_rotations g |}.
Proof.
  intros Hc [Hs Hm] Hin.
  destruct (set_cell_Some (board g) x y 6 Hs Hin) as [b Hb].
  destruct (set_slot_Some (board_meshes g) (5 * x + y) None) as (ms & Hms & _).
  { unfold in_grid in Hin. lia. }
  exists b, ms. split_and!; [done..|].
  unfold getFood_item, write_board, write_mesh, collect, mbind, M_bind, get_win, set_win.
  destruct Hc as [-> | [-> | ->]]; simpl; rewrite Hb; simpl; rewrite Hms; reflexivity.
Qed.

(** ** Moving the chef *)

Lemma move_chef_spec step g :
  storage_ok g → interior (chef g) → interior (step (chef g)) →
  ∃ b0 b1 ms0 ms1,
    set_cell (board g) (X (chef g)) (Y (chef g)) 0 = Some b0 ∧
    set_cell b0 (X (step (chef g))) (Y (step (chef g))) 1 = Some b1 ∧
    set_slot (board_meshes g) (5 * X (chef g) + Y (chef g)) None = Some ms0 ∧
    set_slot ms0 (5 * X (step (chef g)) + Y (step (chef g))) (Some doll_mesh) = Some ms1 ∧
    length ms1 = 25%nat ∧
    move_chef step g =
      Done tt {| board := b1; chef := step (chef g); win := win g;
                 board_meshes := ms1; board_rotations := board_rotations g |}.
Proof.
  intros [Hs Hm] [Hx Hy] [Hx' Hy'].
  destruct (set_cell_Some (board g) (X (chef g)) (Y (chef g)) 0 Hs) as [b0 Hb0];
    [split; lia|].
  assert (Hs0 := set_cell_shape _ _ _ _ _ Hs Hb0).
  destruct (set_cell_Some b0 (X (step (chef g))) (Y (step (chef g))) 1 Hs0) as [b1 Hb1];
    [split; lia|].
  destruct (set_slot_Some (board_meshes g) (5 * X (chef g) + Y (chef g)) None)
    as (ms0 & Hms0 & Hl0); [lia|].
  destruct (set_slot_Some ms0 (5 * X (step (chef g)) + Y (step (chef g))) (Some doll_mesh))
    as (ms1 & Hms1 & Hl1); [lia|].
  exists b0, b1, ms0, ms1. split_and!; [done.. | congruence |].
  unfold move_chef, write_board, write_mesh, mbind, M_bind, get_chef, set_chef.
  simpl. rewrite Hb0. simpl. rewrite Hms0. simpl. rewrite Hb1. simpl. rewrite Hms1.
  reflexivity.
Qed.

(** ** The invariant of play *)

Lemma cells_holding_iff b v c :
  shape5 b → cells_holding v b = [c] →
  ∀ x y, get_cell b x y = Some v ↔ (x, y) = c.
Proof.
  intros Hs Hc x y.
  assert (Hf := list_elem_of_filter (λ c, get_cell b c.1 c.2 = Some v) all_cells (x, y)).
  fold (cells_holding v b) in Hf. rewrite Hc in Hf. simpl in Hf.
  rewrite list_elem_of_singleton in Hf. split.
  - intros Hv. apply Hf. split; [done|].
    apply elem_of_all_cells. eapply get_cell_in_grid; eassumption.
  - intros Heq. by apply Hf.
Qed.

Lemma initBoard_Inv rand g :
  storage_ok g →
  ∃ g', initBoard rand g = Done tt g' ∧ Inv g' ∧ win g' = win g ∧
        chef g' = {| X := 2; Y := 2 |}.
Proof.
  intros Hok. destruct (initBoard_spec rand g Hok) as (b & ms & rs & Hinit & Hb & Hs & Hl).
  destruct (draws_fillIn rand) as (c0 & c1 & c2 & c3 & Hd & Hnd & Hsub).
  rewrite Hd in Hb.
  destruct (initBoard_cells _ _ _ _ _ Hnd Hsub Hb) as (_ & _ & _ & _ & H1).
  eexists. split; [exact Hinit|]. split_and!; try done.
Qed.

Lemma move_chef_Inv step g :
  Inv g → interior (step (chef g)) → step (chef g) ≠ chef g →
  ∃ g', move_chef step g = Done tt g' ∧ Inv g' ∧
        chef g' = step (chef g) ∧ win g' = win g.
Proof.
  intros (Hok & Hint & H1) Hint' Hne.
  destruct (move_chef_spec step g Hok Hint Hint')
    as (b0 & b1 & ms0 & ms1 & Hb0 & Hb1 & _ & _ & Hl & Hmove).
  eexists. split; [exact Hmove|]. destruct Hok as [Hs Hm].
  assert (Hs1 : shape5 b1) by eauto using set_cell_shape.
  split; [|done]. split; [done|]. split; [done|]. simpl.
  apply cells_holding_singleton.
  { unfold in_grid, interior in *. simpl. lia. }
  intros x y. rewrite (get_set_cell _ _ _ _ _ Hb1), (get_set_cell _ _ _ _ _ Hb0).
  assert (Hiff := cells_holding_iff _ _ _ Hs H1 x y). unfold pos, Character in *.
  destruct (chef g) as [cx cy], (step _) as [sx sy]. simpl in *.
  repeat case_decide; split; intros Hv; simplify_eq; try done; try (intuition congruence).
  apply Hiff in Hv. simplify_eq. tauto.
Qed.

(** ** [handle_event] on an arrow key *)

Lemma handle_event_arrow rand k g :
  is_arrow k = true →
  handle_event rand (arrow k) g =
    (when (edge k (chef g)) (getFood rand (dir_of k));; then_move k) g.
Proof. destruct k; [reflexivity.. | discriminate]. Qed.

Lemma arrow_facts k c :
  is_arrow k = true → interior c →
  pos (step_of k c) = target (dir_of k) c ∧ step_of k c ≠ c ∧
  in_grid (X (step_of k c)) (Y (step_of k c)) ∧
  (can k c = true ↔ interior (step_of k c)) ∧
  edge k c = negb (can k c).
Proof.
  intros Hk [Hx Hy]. destruct c as [cx cy]. simpl in Hx, Hy.
  destruct k; try discriminate; unfold interior, in_grid, pos; simpl;
    (split_and!;
     first [ reflexivity
           | lia
           | intros [=]; lia
           | rewrite Z.ltb_lt; lia
           | destruct (Z.eqb_spec _ _), (Z.ltb_spec _ _); simpl; lia || reflexivity ]).
Qed.

Lemma then_move_stay k g :
  can k (chef g) = false → then_move k g = Done true g.
Proof.
  intros Hc. unfold then_move, mbind, M_bind, get_chef, when. by rewrite Hc.
Qed.

Lemma then_move_go k g :
  is_arrow k = true → Inv g → can k (chef g) = true →
  ∃ g', move_chef (step_of k) g = Done tt g' ∧ then_move k g = Done true g' ∧
        Inv g' ∧ chef g' = step_of k (chef g) ∧ win g' = win g.
Proof.
  intros Hk HI Hc.
  destruct (arrow_facts k (chef g) Hk) as (_ & Hne & _ & Hcan & _); [apply HI|].
  destruct (move_chef_Inv (step_of k) g HI) as (g' & Hmove & HI' & Hchef & Hwin);
    [by apply Hcan | done |].
  exists g'. split_and!; try done.
  unfold then_move, mbind, M_bind, get_chef, when. by rewrite Hc, Hmove.
Qed.

(** The press steps to an inner square: the chef moves there. *)
Lemma press_moves rand k g :
  is_arrow k = true → Inv g → interior (step_of k (chef g)) →
  ∃ g', handle_event rand (arrow k) g = Done true g' ∧ Inv g' ∧
        chef g' = step_of k (chef g) ∧ win g' = win g ∧
        move_chef (step_of k) g = Done tt g'.
Proof.
  intros Hk HI Hint.
  destruct (arrow_facts k (chef g) Hk) as (_ & _ & _ & Hcan & Hedge); [apply HI|].
  apply Hcan in Hint.
  destruct (then_move_go k g Hk HI Hint) as (g' & Hmove & Hthen & HI' & Hc & Hw).
  exists g'. split_and!; try done.
  rewrite handle_event_arrow by done. rewrite Hedge, Hint. simpl.
  by rewrite (bind_Done (mret tt) _ g tt g eq_refl).
Qed.

(** The press would leave the inner squares: [getFood] reads the square
    beyond, and what follows depends on the code it finds. *)
Lemma press_at_edge rand k g :
  is_arrow k = true → Inv g → ¬ interior (step_of k (chef g)) →
  ∃ item,
    get_cell (board g) (X (step_of k (chef g))) (Y (step_of k (chef g))) = Some item ∧
    getFood rand (dir_of k) g =
      getFood_item rand (X (step_of k (chef g))) (Y (step_of k (chef g))) item g ∧
    handle_event rand (arrow k) g =
      (getFood_item rand (X (step_of k (chef g))) (Y (step_of k (chef g))) item;;
       then_move k) g ∧
    can k (chef g) = false.
Proof.
  intros Hk HI Hint.
  destruct (arrow_facts k (chef g) Hk) as (Ht & _ & Hin & Hcan & Hedge); [apply HI|].
  assert (Hc : can k (chef g) = false).
  { destruct (can k (chef g)); [|done]. exfalso. by apply Hint, Hcan. }
  destruct (getFood_read rand (dir_of k) g _ _ (eq_sym Ht)) as (item & Hitem & Hget);
    [apply HI | done |].
  exists item. split_and!; try done.
  rewrite handle_event_arrow by done. rewrite Hedge, Hc. simpl.
  unfold mbind, M_bind. by rewrite Hget.
Qed.

(** Picking up an item keeps the invariant. *)
Lemma collect_Inv g x y b ms w :
  Inv g → (x, y) ≠ pos (chef g) →
  set_cell (board g) x y 6 = Some b → length ms = 25%nat →
  Inv {| board := b; chef := chef g; win := w;
         board_meshes := ms; board_rotations := board_rotations g |}.
Proof.
  intros ([Hs Hm] & Hint & H1) Hne Hb Hl.
  split; [split; [eauto using set_cell_shape | done]|]. split; [done|]. simpl.
  assert (Hchef : in_grid (X (chef g)) (Y (chef g))).
  { unfold in_grid, interior in *. lia. }
  apply cells_holding_singleton; [done|].
  intros x' y'. rewrite (get_set_cell _ _ _ _ _ Hb).
  assert (Hiff := cells_holding_iff _ _ _ Hs H1 x' y'). unfold Character in *.
  case_decide; [|done]. split; intros Hv; simplify_eq. intuition congruence.
Qed.

Lemma press_edge_cases rand k g :
  is_arrow k = true → Inv g → ¬ interior (step_of k (chef g)) →
  ∃ item,
    get_cell (board g) (X (step_of k (chef g))) (Y (step_of k (chef g))) = Some item ∧
    ((collectible item ∧ ∃ b ms,
        set_cell (board g) (X (step_of k (chef g))) (Y (step_of k (chef g))) 6 = Some b ∧
        set_slot (board_meshes g)
          (5 * X (step_of k (chef g)) + Y (step_of k (chef g))) None = Some ms ∧
        handle_event rand (arrow k) g =
          Done true {| board := b; chef := chef g; win := collect item (win g);
                       board_meshes := ms; board_rotations := board_rotations g |} ∧
        Inv {| board := b; chef := chef g; win := collect item (win g);
               board_meshes := ms; board_rotations := board_rotations g |})
     ∨ (item = Goal ∧ win_all (win g) = true ∧ ∃ g1 g2,
        initBoard rand (with_win no_flags g) = Done tt g1 ∧
        move_chef (step_of k) g1 = Done tt g2 ∧
        handle_event rand (arrow k) g = Done true g2 ∧
        Inv g2 ∧ chef g2 = step_of k {| X := 2; Y := 2 |} ∧ win g2 = no_flags)
     ∨ (¬ collectible item ∧ ¬ (item = Goal ∧ win_all (win g) = true) ∧
        handle_event rand (arrow k) g = Done true g)).
Proof.
  intros Hk HI Hint.
  destruct (press_at_edge rand k g Hk HI Hint) as (item & Hitem & _ & Hpress & Hcan).
  destruct (arrow_facts k (chef g) Hk) as (_ & Hne & Hin & _ & _); [apply HI|].
  exists item. split; [done|]. rewrite Hpress.
  destruct (decide (collectible item)) as [Hc|Hnc].
  - left. split; [done|].
    destruct (getFood_item_collect rand _ _ item g Hc (proj1 HI) Hin)
      as (b & ms & Hb & Hms & Hget).
    exists b, ms. rewrite (bind_Done _ _ _ _ _ Hget).
    rewrite then_move_stay by done. split_and!; try done.
    eapply collect_Inv; try done.
    + intros Heq. apply Hne. destruct (step_of k (chef g)), (chef g).
      unfold pos in Heq. simpl in *. congruence.
    + destruct (set_slot_Some (board_meshes g)
        (5 * X (step_of k (chef g)) + Y (step_of k (chef g))) None) as (ms' & Hms' & Hl').
      { destruct HI as ([_ Hm] & _). unfold in_grid in Hin. lia. }
      destruct HI as ([_ Hm] & _). congruence.
  - destruct (decide (item = Goal)) as [->|Hng];
      [destruct (win_all (win g)) eqn:Hw|].
    + right; left. split_and!; try done.
      destruct (initBoard_Inv rand (with_win no_flags g)) as (g1 & Hinit & HI1 & Hw1 & Hc1);
        [apply HI|].
      destruct (then_move_go k g1 Hk HI1) as (g2 & Hmove & Hthen & HI2 & Hc2 & Hw2).
      { rewrite Hc1. by destruct k. }
      exists g1, g2. unfold Goal.
      rewrite (bind_Done (getFood_item rand _ _ 5) _ g tt g1)
        by (by rewrite getFood_item_goal_win).
      split_and!; try done; [by rewrite Hc2, Hc1 | by rewrite Hw2, Hw1].
    + right; right. split_and!; [done | intros [_ ?]; congruence |].
      unfold Goal.
      rewrite (bind_Done _ _ _ _ _ (getFood_item_goal_locked rand _ _ g Hw)).
      by apply then_move_stay.
    + right; right. split_and!; [done | tauto |].
      rewrite (bind_Done _ _ g tt g); [by apply then_move_stay|].
      apply getFood_item_other. unfold collectible, Goal, PeanutButter, Jelly, Bread in *. lia.
Qed.

(** ** Events that are no arrow press *)

Lemma arrow_press_eq evt : arrow_press evt = true → evt = arrow (key_scancode evt).
Proof.
  destruct evt as [t r k]. unfold arrow_press, arrow. simpl.
  intros [[Ht Hr]%andb_true_iff _]%andb_true_iff.
  apply bool_decide_eq_true in Ht. apply Z.eqb_eq in Hr. by subst.
Qed.

Lemma handle_event_other rand evt g :
  arrow_press evt = false → handle_event rand evt g = Done false g.
Proof.
  destruct evt as [t r k]. unfold arrow_press, handle_event. simpl.
  destruct (bool_decide (t = SDL_KEYDOWN)), (r =? 0), k; simpl; done.
Qed.

(** [handle_event] returns and keeps the invariant. *)
Lemma handle_event_Inv rand evt g :
  Inv g → ∃ r g', handle_event rand evt g = Done r g' ∧ Inv g'.
Proof.
  intros HI. destruct (arrow_press evt) eqn:Hp.
  - assert (Hk : is_arrow (key_scancode evt) = true).
    { unfold arrow_press in Hp. by apply andb_true_iff in Hp as [_ ?]. }
    rewrite (arrow_press_eq evt Hp).
    destruct (decide (interior (step_of (key_scancode evt) (chef g)))) as [Hint|Hint].
    + destruct (press_moves rand _ g Hk HI Hint) as (g' & Hh & HI' & _). eauto.
    + destruct (press_edge_cases rand _ g Hk HI Hint)
        as (item & _ & [(_ & b & ms & _ & _ & Hh & HI')
                       |[(_ & _ & g1 & g2 & _ & _ & Hh & HI' & _)|(_ & _ & Hh)]]); eauto.
  - rewrite handle_event_other by done. eauto.
Qed.

Lemma run_Inv cs g : Inv g → ∃ g', run cs g = Done tt g' ∧ Inv g'.
Proof.
  revert g. induction cs as [|c cs IH]; intros g HI; [by exists g|].
  assert (Hc : ∃ g1, do_call c g = Done tt g1 ∧ Inv g1).
  { destruct c as [rand|rand evt]; simpl.
    - destruct (initBoard_Inv rand g (proj1 HI)) as (g1 & Hg1 & HI1 & _). eauto.
    - destruct (handle_event_Inv rand evt g HI) as (r & g1 & Hg1 & HI1).
      exists g1. by rewrite (bind_Done _ _ _ _ _ Hg1). }
  destruct Hc as (g1 & Hg1 & HI1). destruct (IH g1 HI1) as (g' & Hg' & HI').
  exists g'. simpl. by rewrite (bind_Done _ _ _ _ _ Hg1).
Qed.

(** * The claims *)

(** ** Sample states *)

Lemma blank_ok : storage_ok blank.
Proof. split; [split; [done | by repeat constructor] | done]. Defined.

Example round0_run : initBoard rand0 blank = Done tt round0.
Proof. vm_compute. reflexivity. Qed.

Example round0_board :
  board round0 =
  [[0; 3; 2; 4; 0]; [5; 0; 0; 0; 6]; [6; 0; 1; 0; 6]; [6; 0; 0; 0; 6]; [0; 6; 6; 6; 0]].
Proof. vm_compute. reflexivity. Qed.

(** ** C6: the four items after [initBoard] *)

(** C6.  After [initBoard], whatever [rand()] returns, exactly one cell
    holds PeanutButter, exactly one Jelly, exactly one Bread and exactly one
    Goal; the four cells are pairwise distinct members of the twelve cells
    of [fillIn], and they are the first, second, third and fourth draw, in
    the order PeanutButter, Jelly, Bread, Goal. *)
Theorem initBoard_places_four rand g :
  storage_ok g →
  ∃ g' cPB cJ cB cG,
    initBoard rand g = Done tt g' ∧
    draws rand 4 0 fillIn = [cPB; cJ; cB; cG] ∧
    cells_holding PeanutButter (board g') = [cPB] ∧
    cells_holding Jelly (board g') = [cJ] ∧
    cells_holding Bread (board g') = [cB] ∧
    cells_holding Goal (board g') = [cG] ∧
    NoDup [cPB; cJ; cB; cG] ∧
    (∀ c, c ∈ [cPB; cJ; cB; cG] → c ∈ fillIn) ∧
    length fillIn = 12%nat.
Proof.
  intros Hok.
  destruct (initBoard_spec rand g Hok) as (b & ms & rs & Hinit & Hb & Hs & Hl).
  destruct (draws_fillIn rand) as (c0 & c1 & c2 & c3 & Hd & Hnd & Hsub).
  rewrite Hd in Hb.
  destruct (initBoard_cells _ _ _ _ _ Hnd Hsub Hb) as (H3 & H2 & H4 & H5 & _).
  eexists _, c0, c1, c2, c3. split; [exact Hinit|]. by split_and!.
Qed.

Lemma initBoard_places_four_witness :
  ∃ g' cPB cJ cB cG,
    initBoard rand0 blank = Done tt g' ∧
    draws rand0 4 0 fillIn = [cPB; cJ; cB; cG] ∧
    cells_holding PeanutButter (board g') = [cPB] ∧
    cells_holding Jelly (board g') = [cJ] ∧
    cells_holding Bread (board g') = [cB] ∧
    cells_holding Goal (board g') = [cG] ∧
    NoDup [cPB; cJ; cB; cG] ∧
    (∀ c, c ∈ [cPB; cJ; cB; cG] → c ∈ fillIn) ∧
    length fillIn = 12%nat.
Proof. apply (initBoard_places_four rand0 blank). exact blank_ok. Defined.

(** ** C5: [initBoard] and the flags *)

(** C5, as stated, fails: [initBoard] called on an object whose three
    flags are set does not leave them cleared. *)
Lemma initBoard_does_not_clear_flags :
  ¬ ∃ g', initBoard rand0 blank_all_flags = Done tt g' ∧ win g' = no_flags.
Proof. intros (g' & Hrun & Hw). vm_compute in Hrun. by simplify_eq. Qed.

(** C5, amended.  [initBoard] by itself resets the grid (the fixed layout
    with the four items drawn anew) and puts the chef and the code 1 on
    (2,2); it leaves the three flags as they were.  The flags are cleared
    by the win branch of [getFood], before it calls [initBoard]. *)
Theorem initBoard_keeps_flags rand g :
  storage_ok g →
  ∃ g', initBoard rand g = Done tt g' ∧
        win g' = win g ∧
        chef g' = {| X := 2; Y := 2 |} ∧
        place init_grid 0 (draws rand 4 0 fillIn) = Some (board g') ∧
        cells_holding Character (board g') = [(2, 2)] ∧
        (∀ x y, win_all (win g) = true →
           ∃ g'', getFood_item rand x y Goal g = Done tt g'' ∧ win g'' = no_flags).
Proof.
  intros Hok.
  destruct (initBoard_spec rand g Hok) as (b & ms & rs & Hinit & Hb & Hs & Hl).
  destruct (draws_fillIn rand) as (c0 & c1 & c2 & c3 & Hd & Hnd & Hsub).
  eexists. split; [exact Hinit|]. split_and!; try done.
  - simpl. rewrite Hd in Hb.
    by destruct (initBoard_cells _ _ _ _ _ Hnd Hsub Hb) as (_ & _ & _ & _ & H1).
  - intros x y Hw.
    destruct (initBoard_Inv rand (with_win no_flags g) Hok) as (g2 & Hinit2 & _ & Hw2 & _).
    exists g2. unfold Goal. by rewrite getFood_item_goal_win.
Qed.

Lemma initBoard_keeps_flags_witness :
  ∃ g', initBoard rand0 blank_all_flags = Done tt g' ∧
        win g' = win blank_all_flags ∧
        chef g' = {| X := 2; Y := 2 |} ∧
        place init_grid 0 (draws rand0 4 0 fillIn) = Some (board g') ∧
        cells_holding Character (board g') = [(2, 2)] ∧
        (∀ x y, win_all (win blank_all_flags) = true →
           ∃ g'', getFood_item rand0 x y Goal blank_all_flags = Done tt g'' ∧
                  win g'' = no_flags).
Proof. apply (initBoard_keeps_flags rand0 blank_all_flags). exact blank_ok. Defined.

(** ** C7: too few cells for [spawnFood] *)

(** C7, as stated, fails: with one candidate cell [spawnFood] writes the
    peanut butter to it and then stops at [rand() % 0]; it does not stop
    with [InsufficientSpawnCells] before any placement. *)
Lemma spawnFood_one_cell_places :
  ¬ (spawnFood rand0 [(0, 1)] blank = Failed InsufficientSpawnCells blank) ∧
  ∃ g', spawnFood rand0 [(0, 1)] blank = Failed (Undefined DivisionByZero) g' ∧
        get_cell (board blank) 0 1 = Some Empty ∧
        get_cell (board g') 0 1 = Some PeanutButter.
Proof.
  split; [vm_compute; discriminate|].
  eexists. split; [vm_compute; reflexivity|]. split; vm_compute; reflexivity.
Qed.

(** C7, amended.  [spawnFood] has no check of the size of [counterSpace].
    Given fewer than four cells, all on the board, it writes the codes in
    the order PB, J, bread to the cells it draws until every cell it was
    given is used, and then stops at [rand() % 0]; it never stops with
    [InsufficientSpawnCells]. *)
Theorem spawnFood_too_few rand cs g :
  (length cs < 4)%nat → cells_in_grid cs → shape5 (board g) →
  ∃ b', spawnFood rand cs g = Failed (Undefined DivisionByZero) (with_board b' g) ∧
        place (board g) 0 (draws rand 4 0 cs) = Some b' ∧
        draws rand 4 0 cs ≡ₚ cs.
Proof.
  intros Hlen Hcs Hs.
  destruct (spawnFood_spec rand cs g Hcs Hs) as (b' & Hb' & _ & Hspawn).
  rewrite decide_False in Hspawn by lia.
  exists b'. split_and!; [done..|].
  symmetry. apply draws_all. lia.
Qed.

Lemma spawnFood_too_few_witness :
  ∃ b', spawnFood rand0 [(0, 1); (0, 2)] blank =
          Failed (Undefined DivisionByZero) (with_board b' blank) ∧
        place (board blank) 0 (draws rand0 4 0 [(0, 1); (0, 2)]) = Some b' ∧
        draws rand0 4 0 [(0, 1); (0, 2)] ≡ₚ [(0, 1); (0, 2)].
Proof.
  apply (spawnFood_too_few rand0 [(0, 1); (0, 2)] blank).
  - simpl. lia.
  - unfold cells_in_grid, in_grid. repeat constructor; simpl; lia.
  - exact (proj1 blank_ok).
Defined.

(** ** C1: [getFood] on the goal square *)

Lemma target_of_start_not_side dir : target dir {| X := 2; Y := 2 |} ∉ fillIn.
Proof.
  unfold target. simpl.
  destruct (dir =? 0), (dir =? 1), (dir =? 2);
    apply (bool_decide_unpack _); vm_compute; exact I.
Qed.

(** C1.  When the square [getFood] looks at is a side square of [fillIn]
    that holds the goal code, the call returns; if the three flags are all
    set, the state it leaves is the one [initBoard] makes after the flags
    were cleared (a new placement of the items, the flags false, the chef on
    (2,2)); if one of the flags is not set, the state is unchanged; and the
    state left is that re-initialized one only if the three flags were
    set. *)
Theorem getFood_goal_win_law rand dir g x y :
  storage_ok g → target dir (chef g) = (x, y) → (x, y) ∈ fillIn →
  get_cell (board g) x y = Some Goal →
  ∃ g', getFood rand dir g = Done tt g' ∧
    (win_all (win g) = true →
       initBoard rand (with_win no_flags g) = Done tt g' ∧
       win g' = no_flags ∧ chef g' = {| X := 2; Y := 2 |} ∧
       place init_grid 0 (draws rand 4 0 fillIn) = Some (board g')) ∧
    (win_all (win g) = false → g' = g) ∧
    (win g' = no_flags ∧ chef g' = {| X := 2; Y := 2 |} ∧
       place init_grid 0 (draws rand 4 0 fillIn) = Some (board g')
     ↔ win_all (win g) = true).
Proof.
  intros Hok Ht Hside Hgoal.
  destruct (fillIn_cell _ Hside) as (Hin & _ & _). simpl in Hin.
  destruct (getFood_read rand dir g x y Ht (proj1 Hok) Hin) as (item & Hitem & Hget).
  rewrite Hgoal in Hitem. injection Hitem as <-. unfold Goal in Hget.
  destruct (win_all (win g)) eqn:Hw.
  - rewrite getFood_item_goal_win in Hget by done.
    destruct (initBoard_spec rand (with_win no_flags g) Hok)
      as (b & ms & rs & Hinit & Hb & _ & _).
    eexists. split; [by rewrite Hget|]. by split_and!.
  - rewrite getFood_item_goal_locked in Hget by done.
    exists g. split_and!; try done.
    split; [|done]. intros (_ & Hc & _). exfalso.
    apply (target_of_start_not_side dir). by rewrite <- Hc, Ht.
Qed.

Example ready_state :
  board ready =
    [[0; 6; 6; 6; 0]; [5; 1; 0; 0; 6]; [6; 0; 0; 0; 6]; [6; 0; 0; 0; 6]; [0; 6; 6; 6; 0]] ∧
  chef ready = {| X := 1; Y := 1 |} ∧
  win ready = {| PB := true; J := true; bread := true |}.
Proof. vm_compute. by split_and!. Qed.

Lemma ready_ok : storage_ok ready.
Proof. vm_compute. split; [split; [done | by repeat constructor] | done]. Defined.

Lemma getFood_goal_win_law_witness :
  ∃ g', getFood rand0 2 ready = Done tt g' ∧
    (win_all (win ready) = true →
       initBoard rand0 (with_win no_flags ready) = Done tt g' ∧
       win g' = no_flags ∧ chef g' = {| X := 2; Y := 2 |} ∧
       place init_grid 0 (draws rand0 4 0 fillIn) = Some (board g')) ∧
    (win_all (win ready) = false → g' = ready) ∧
    (win g' = no_flags ∧ chef g' = {| X := 2; Y := 2 |} ∧
       place init_grid 0 (draws rand0 4 0 fillIn) = Some (board g')
     ↔ win_all (win ready) = true).
Proof.
  apply (getFood_goal_win_law rand0 2 ready 1 0).
  - exact ready_ok.
  - vm_compute. reflexivity.
  - apply (bool_decide_unpack _). vm_compute. exact I.
  - vm_compute. reflexivity.
Defined.

(** ** C3: picking up an ingredient *)

Example below_jelly_state :
  board below_jelly =
    [[0; 3; 2; 4; 0]; [5; 0; 1; 0; 6]; [6; 0; 0; 0; 6]; [6; 0; 0; 0; 6]; [0; 6; 6; 6; 0]] ∧
  chef below_jelly = {| X := 1; Y := 2 |} ∧ win below_jelly = no_flags.
Proof. vm_compute. by split_and!. Qed.

Lemma below_jelly_ok : storage_ok below_jelly.
Proof. vm_compute. split; [split; [done | by repeat constructor] | done]. Defined.

(** C3, as stated, fails: after the jelly on (0,2) was picked up, the
    square does not hold the code Empty. *)
Lemma collected_cell_is_not_Empty :
  ¬ ∃ g', getFood rand0 0 below_jelly = Done tt g' ∧ J (win g') = true ∧
          get_cell (board g') 0 2 = Some Empty.
Proof. intros (g' & Hrun & _ & Hcell). vm_compute in Hrun. simplify_eq. Qed.

(** C3, amended.  When the square [getFood] looks at holds peanut butter,
    jelly or bread, the call sets the flag of that ingredient, writes the
    code 6 (the empty side square) to the square, leaves the other flags,
    the chef and every other square as they were, and a second call on the
    same square changes nothing.  When the square was the only one that
    held the ingredient, as [initBoard] places them, no square holds it
    afterwards. *)
Theorem getFood_collects rand dir g x y item :
  storage_ok g → target dir (chef g) = (x, y) → in_grid x y →
  get_cell (board g) x y = Some item → collectible item →
  ∃ g', getFood rand dir g = Done tt g' ∧
    win g' = collect item (win g) ∧ flag_of item (win g') = true ∧
    get_cell (board g') x y = Some OutOfPlay ∧
    (∀ x' y', (x', y') ≠ (x, y) → get_cell (board g') x' y' = get_cell (board g) x' y') ∧
    chef g' = chef g ∧
    getFood rand dir g' = Done tt g' ∧
    (cells_holding item (board g) = [(x, y)] → cells_holding item (board g') = []).
Proof.
  intros Hok Ht Hin Hitem Hc.
  destruct (getFood_read rand dir g x y Ht (proj1 Hok) Hin) as (item' & Hitem' & Hget).
  rewrite Hitem in Hitem'. injection Hitem' as <-.
  destruct (getFood_item_collect rand x y item g Hc Hok Hin) as (b & ms & Hb & Hms & Hcol).
  rewrite Hcol in Hget. eexists. split; [exact Hget|]. simpl.
  assert (Hcell := get_set_cell _ _ _ _ _ Hb).
  split_and!; try done.
  - unfold flag_of, collect.
    destruct Hc as [-> | [-> | ->]]; reflexivity.
  - rewrite Hcell. by rewrite decide_True.
  - intros x' y' Hne. rewrite Hcell. rewrite decide_False; [done|].
    intros [-> ->]. by apply Hne.
  - set (g' := {| board := b; chef := chef g; win := collect item (win g);
                  board_meshes := ms; board_rotations := board_rotations g |}).
    destruct (getFood_read rand dir g' x y Ht) as (item' & Hitem' & Hget');
      [eapply set_cell_shape; [apply Hok | exact Hb] | done |].
    simpl in Hitem'. rewrite Hcell, decide_True in Hitem' by done.
    injection Hitem' as <-. rewrite Hget'. apply getFood_item_other. lia.
  - intros Hone. apply cells_holding_none. intros x' y'. rewrite Hcell.
    assert (Hiff := cells_holding_iff _ _ _ (proj1 Hok) Hone x' y').
    case_decide as Hxy.
    + intros [= <-]. unfold collectible, PeanutButter, Jelly, Bread in Hc. lia.
    + intros Hv. apply Hiff in Hv. apply Hxy. by simplify_eq.
Qed.

Lemma getFood_collects_witness :
  ∃ g', getFood rand0 0 below_jelly = Done tt g' ∧
    win g' = collect Jelly (win below_jelly) ∧ flag_of Jelly (win g') = true ∧
    get_cell (board g') 0 2 = Some OutOfPlay ∧
    (∀ x' y', (x', y') ≠ (0, 2) →
       get_cell (board g') x' y' = get_cell (board below_jelly) x' y') ∧
    chef g' = chef below_jelly ∧
    getFood rand0 0 g' = Done tt g' ∧
    (cells_holding Jelly (board below_jelly) = [(0, 2)] →
     cells_holding Jelly (board g') = []).
Proof.
  apply (getFood_collects rand0 0 below_jelly 0 2 Jelly).
  - exact below_jelly_ok.
  - vm_compute. reflexivity.
  - unfold in_grid. lia.
  - vm_compute. reflexivity.
  - unfold collectible. right. left. reflexivity.
Defined.

(** ** C2 and C10: after any sequence of calls *)

(** C2.  After [initBoard] and any further sequence of calls of
    [initBoard] and [handle_event], the calls all return and exactly one
    cell of the board holds the code 1: the cell of the chef. *)
Theorem one_character_cell rand cs g0 :
  storage_ok g0 →
  ∃ g, run (Initialize rand :: cs) g0 = Done tt g ∧
       cells_holding Character (board g) = [pos (chef g)] ∧
       length (cells_holding Character (board g)) = 1%nat.
Proof.
  intros Hok. destruct (initBoard_Inv rand g0 Hok) as (g1 & Hinit & HI1 & _).
  destruct (run_Inv cs g1 HI1) as (g & Hrun & _ & _ & H1).
  exists g. split; [|by rewrite H1].
  change (run (Initialize rand :: cs)) with (initBoard rand;; run cs).
  by rewrite (bind_Done _ _ _ _ _ Hinit).
Qed.

Lemma one_character_cell_witness :
  ∃ g, run (Initialize rand0 :: [press SDL_SCANCODE_UP; press SDL_SCANCODE_UP;
                                 Initialize rand0; press SDL_SCANCODE_LEFT]) blank
         = Done tt g ∧
       cells_holding Character (board g) = [pos (chef g)] ∧
       length (cells_holding Character (board g)) = 1%nat.
Proof. apply (one_character_cell rand0 _ blank). exact blank_ok. Defined.

(** C10.  After [initBoard] and any further sequence of calls of
    [initBoard] and [handle_event], rounds won and their resets included,
    the chef stands within [1,3] x [1,3]. *)
Theorem chef_stays_inside rand cs g0 :
  storage_ok g0 →
  ∃ g, run (Initialize rand :: cs) g0 = Done tt g ∧
       1 <= X (chef g) <= 3 ∧ 1 <= Y (chef g) <= 3.
Proof.
  intros Hok. destruct (initBoard_Inv rand g0 Hok) as (g1 & Hinit & HI1 & _).
  destruct (run_Inv cs g1 HI1) as (g & Hrun & _ & Hint & _).
  exists g. split; [|exact Hint].
  change (run (Initialize rand :: cs)) with (initBoard rand;; run cs).
  by rewrite (bind_Done _ _ _ _ _ Hinit).
Qed.

Lemma chef_stays_inside_witness :
  ∃ g, run (Initialize rand0 :: [press SDL_SCANCODE_DOWN; press SDL_SCANCODE_LEFT;
                                 press SDL_SCANCODE_DOWN; press SDL_SCANCODE_RIGHT;
                                 press SDL_SCANCODE_DOWN; press SDL_SCANCODE_RIGHT;
                                 press SDL_SCANCODE_DOWN; press SDL_SCANCODE_LEFT;
                                 press SDL_SCANCODE_LEFT; press SDL_SCANCODE_LEFT]) blank
         = Done tt g ∧
       1 <= X (chef g) <= 3 ∧ 1 <= Y (chef g) <= 3.
Proof. apply (chef_stays_inside rand0 _ blank). exact blank_ok. Defined.

(** ** C4: a press at the edge of the inner squares *)

Lemma ready_Inv : Inv ready.
Proof.
  split; [exact ready_ok|]. split; [vm_compute; by intuition discriminate|].
  vm_compute. reflexivity.
Defined.

(** C4, as stated, fails: in [ready] the chef stands on (1,1), the left
    arrow would leave the inner squares, and the press wins the round; the
    chef is somewhere else afterwards. *)
Lemma press_at_edge_moves_chef_on_win :
  ¬ interior (step_of SDL_SCANCODE_LEFT (chef ready)) ∧
  ∃ g', handle_event rand0 (arrow SDL_SCANCODE_LEFT) ready = Done true g' ∧
        chef g' ≠ chef ready.
Proof.
  split.
  - vm_compute. intuition.
  - eexists. split; [vm_compute; reflexivity|]. vm_compute. discriminate.
Qed.

(** C4, amended.  In a state of play, an arrow press that would take the
    chef off the inner squares returns true; it leaves the position of the
    chef as it was unless the square beyond holds the goal code and the
    three flags are set; and it changes the board only if that square holds
    an ingredient, or the goal code with the three flags set. *)
Theorem press_at_edge_frame rand k g :
  is_arrow k = true → Inv g → ¬ interior (step_of k (chef g)) →
  ∃ item g',
    get_cell (board g) (X (step_of k (chef g))) (Y (step_of k (chef g))) = Some item ∧
    handle_event rand (arrow k) g = Done true g' ∧
    (¬ (item = Goal ∧ win_all (win g) = true) → chef g' = chef g) ∧
    (board g' ≠ board g → collectible item ∨ (item = Goal ∧ win_all (win g) = true)).
Proof.
  intros Hk HI Hint.
  destruct (press_edge_cases rand k g Hk HI Hint)
    as (item & Hitem & [(Hc & b & ms & _ & _ & Hh & _)
                       |[(Hg & Hw & g1 & g2 & _ & _ & Hh & _)|(Hnc & Hng & Hh)]]).
  - eexists item, _. split_and!; [done | exact Hh | done | by left].
  - exists item, g2. split_and!; [done | done | tauto | by right].
  - exists item, g. split_and!; [done | done | done | done].
Qed.

Lemma press_at_edge_frame_witness :
  ∃ item g',
    get_cell (board below_jelly)
      (X (step_of SDL_SCANCODE_DOWN (chef below_jelly)))
      (Y (step_of SDL_SCANCODE_DOWN (chef below_jelly))) = Some item ∧
    handle_event rand0 (arrow SDL_SCANCODE_DOWN) below_jelly = Done true g' ∧
    (¬ (item = Goal ∧ win_all (win below_jelly) = true) → chef g' = chef below_jelly) ∧
    (board g' ≠ board below_jelly →
       collectible item ∨ (item = Goal ∧ win_all (win below_jelly) = true)).
Proof.
  apply (press_at_edge_frame rand0 SDL_SCANCODE_DOWN below_jelly).
  - reflexivity.
  - split; [exact below_jelly_ok|]. split; [vm_compute; by intuition discriminate|].
    vm_compute. reflexivity.
  - vm_compute. intros [[H _] _]. apply H. reflexivity.
Defined.

(** ** C8: the value [handle_event] returns *)

Example at_side_state :
  board at_side =
    [[0; 3; 2; 4; 0]; [5; 0; 0; 0; 6]; [6; 0; 0; 0; 6]; [6; 0; 1; 0; 6]; [0; 6; 6; 6; 0]] ∧
  chef at_side = {| X := 3; Y := 2 |} ∧ win at_side = no_flags.
Proof. vm_compute. by split_and!. Qed.

(** C8, as stated, fails: the up arrow pressed in [at_side] changes
    nothing and [handle_event] returns true. *)
Lemma handle_event_true_without_change :
  handle_event rand0 (arrow SDL_SCANCODE_UP) at_side = Done true at_side.
Proof. vm_compute. reflexivity. Qed.

(** C8, amended.  In a state of play [handle_event] returns; it returns
    true exactly when the event is a key-down of an arrow key that is no
    automatic repeat, whether or not the state changed; and whenever the
    state changed it returned true. *)
Theorem handle_event_result rand evt g :
  Inv g →
  ∃ r g', handle_event rand evt g = Done r g' ∧
          (r = true ↔ arrow_press evt = true) ∧
          (g' ≠ g → r = true).
Proof.
  intros HI. destruct (arrow_press evt) eqn:Hp.
  - assert (Hk : is_arrow (key_scancode evt) = true).
    { unfold arrow_press in Hp. by apply andb_true_iff in Hp as [_ ?]. }
    rewrite (arrow_press_eq evt Hp).
    destruct (decide (interior (step_of (key_scancode evt) (chef g)))) as [Hint|Hint].
    + destruct (press_moves rand _ g Hk HI Hint) as (g' & Hh & _).
      exists true, g'. by split_and!.
    + destruct (press_edge_cases rand _ g Hk HI Hint)
        as (item & _ & [(_ & b & ms & _ & _ & Hh & _)
                       |[(_ & _ & g1 & g2 & _ & _ & Hh & _)|(_ & _ & Hh)]]);
        eexists true, _; (split; [exact Hh|]); by split_and!.
  - rewrite handle_event_other by done. exists false, g. split_and!; [done | | done].
    split; discriminate.
Qed.

Lemma handle_event_result_witness :
  ∃ r g', handle_event rand0 (arrow SDL_SCANCODE_LEFT) ready = Done r g' ∧
          (r = true ↔ arrow_press (arrow SDL_SCANCODE_LEFT) = true) ∧
          (g' ≠ ready → r = true).
Proof. apply (handle_event_result rand0 (arrow SDL_SCANCODE_LEFT) ready). exact ready_Inv. Defined.

(** ** C9: the scenario of the jelly *)

(** C9.  Cells and positions are written (x, y) with x the axis of the left
    and right arrows ([cell_at], [character]).  When [initBoard] has put
    the peanut butter on (0,1), the jelly on (0,2), the bread on (0,3) and
    the goal on (1,0), the chef is on (2,2); the first press of the left
    arrow moves the chef to (1,2); at the second press the step would
    leave the inner squares, [getFood] looks at the cell (0,2) and picks
    up the jelly: the flag J is set, the other flags are as before, the
    cell no longer holds the jelly, and the chef is still on (1,2). *)
Theorem scenario_jelly rand r1 r2 g0 g :
  storage_ok g0 → initBoard rand g0 = Done tt g →
  cell_at g 0 1 = Some PeanutButter → cell_at g 0 2 = Some Jelly →
  cell_at g 0 3 = Some Bread → cell_at g 1 0 = Some Goal →
  character g = (2, 2) ∧
  ∃ g1 g2,
    handle_event r1 (arrow SDL_SCANCODE_LEFT) g = Done true g1 ∧
    character g1 = (1, 2) ∧ win g1 = win g ∧ cell_at g1 0 2 = Some Jelly ∧
    ¬ interior (step_of SDL_SCANCODE_LEFT (chef g1)) ∧
    on_screen (target (dir_of SDL_SCANCODE_LEFT) (chef g1)) = (0, 2) ∧
    getFood r2 (dir_of SDL_SCANCODE_LEFT) g1 = Done tt g2 ∧
    handle_event r2 (arrow SDL_SCANCODE_LEFT) g1 = Done true g2 ∧
    J (win g2) = true ∧ PB (win g2) = PB (win g1) ∧ bread (win g2) = bread (win g1) ∧
    cell_at g2 0 2 = Some OutOfPlay ∧
    character g2 = (1, 2).
Proof.
  intros Hok Hinit _ HJ _ _.
  destruct (initBoard_Inv rand g0 Hok) as (g' & Hg' & HI & _ & Hchef).
  assert (g' = g) as -> by congruence.
  split; [unfold character; by rewrite Hchef|].
  assert (Hstep : step_of SDL_SCANCODE_LEFT (chef g) = {| X := 2; Y := 1 |}).
  { rewrite Hchef. reflexivity. }
  destruct (press_moves r1 SDL_SCANCODE_LEFT g) as (g1 & Hpress & HI1 & Hc1 & Hw1 & Hmove);
    [done | done | rewrite Hstep; vm_compute; intuition discriminate |].
  rewrite Hstep in Hc1.
  assert (HJ1 : cell_at g1 0 2 = Some Jelly).
  { destruct (move_chef_spec (step_of SDL_SCANCODE_LEFT) g)
      as (b0 & b1 & ms0 & ms1 & Hb0 & Hb1 & _ & _ & _ & Hmove');
      [apply HI | apply HI | rewrite Hstep; vm_compute; intuition discriminate |].
    rewrite Hmove' in Hmove. injection Hmove as <-. unfold cell_at. simpl.
    rewrite Hstep in Hb1. rewrite Hchef in Hb0.
    rewrite (get_set_cell _ _ _ _ _ Hb1). case_decide as H1; [simpl in H1; lia|].
    rewrite (get_set_cell _ _ _ _ _ Hb0). case_decide as H0; [simpl in H0; lia|].
    exact HJ. }
  assert (Hout : ¬ interior (step_of SDL_SCANCODE_LEFT (chef g1))).
  { rewrite Hc1. unfold interior. simpl. lia. }
  destruct (press_at_edge r2 SDL_SCANCODE_LEFT g1) as (item & Hitem & Hfood & Hpress2 & Hcan);
    [done..|].
  rewrite Hc1 in Hitem, Hfood, Hpress2. simpl in Hitem, Hfood, Hpress2.
  change (1 - 1) with 0 in Hitem, Hfood, Hpress2.
  unfold cell_at in HJ1. assert (item = Jelly) as -> by congruence.
  destruct (getFood_item_collect r2 2 0 Jelly g1) as (b & ms & Hb & _ & Hget);
    [right; by left | apply HI1 | split; lia |].
  exists g1, {| board := b; chef := chef g1; win := collect Jelly (win g1);
                board_meshes := ms; board_rotations := board_rotations g1 |}.
  split_and!; try done.
  - unfold character. by rewrite Hc1.
  - by rewrite Hc1.
  - etrans; [exact Hfood | exact Hget].
  - rewrite Hpress2, (bind_Done _ _ _ _ _ Hget). by apply then_move_stay.
  - unfold cell_at. simpl. rewrite (get_set_cell _ _ _ _ _ Hb). by rewrite decide_True.
  - unfold character. simpl. by rewrite Hc1.
Qed.

Lemma scenario_jelly_witness :
  character round_swapped = (2, 2) ∧
  ∃ g1 g2,
    handle_event rand0 (arrow SDL_SCANCODE_LEFT) round_swapped = Done true g1 ∧
    character g1 = (1, 2) ∧ win g1 = win round_swapped ∧ cell_at g1 0 2 = Some Jelly ∧
    ¬ interior (step_of SDL_SCANCODE_LEFT (chef g1)) ∧
    on_screen (target (dir_of SDL_SCANCODE_LEFT) (chef g1)) = (0, 2) ∧
    getFood rand0 (dir_of SDL_SCANCODE_LEFT) g1 = Done tt g2 ∧
    handle_event rand0 (arrow SDL_SCANCODE_LEFT) g1 = Done true g2 ∧
    J (win g2) = true ∧ PB (win g2) = PB (win g1) ∧ bread (win g2) = bread (win g1) ∧
    cell_at g2 0 2 = Some OutOfPlay ∧
    character g2 = (1, 2).
Proof.
  apply (scenario_jelly rand_swapped rand0 rand0 blank round_swapped).
  - exact blank_ok.
  - vm_compute. reflexivity.
  - vm_compute. reflexivity.
  - vm_compute. reflexivity.
  - vm_compute. reflexivity.
  - vm_compute. reflexivity.
Defined.

(** * Further properties *)

(** ** Slots and loops *)

Lemma get_set_slot {A} (l : list A) i a l' :
  set_slot l i a = Some l' →
  ∀ j, 0 <= j → l' !! Z.to_nat j = if decide (j = i) then Some a else l !! Z.to_nat j.
Proof.
  unfold set_slot. destruct (0 <=? i) eqn:Hi; [|discriminate].
  apply Z.leb_le in Hi.
  destruct (l !! Z.to_nat i) as [old|] eqn:Hold; simpl; [|discriminate].
  intros [= <-] j Hj. case_decide as Hji.
  - subst j. apply list_lookup_insert_eq. by eapply lookup_lt_Some.
  - apply list_lookup_insert_ne. lia.
Qed.

Lemma set_slot_length {A} (l : list A) i a l' :
  set_slot l i a = Some l' → length l' = length l.
Proof.
  unfold set_slot. destruct (0 <=? i); [|discriminate].
  destruct (l !! Z.to_nat i); simpl; [|discriminate].
  intros [= <-]. apply length_insert.
Qed.

(** A loop whose body takes [P i] to [P (i + 1)] takes [P lo] to
    [P (lo + n)]. *)
Lemma for_loop_steps (P : Z → Game → Prop) body n lo g :
  (∀ i g0, lo <= i < lo + Z.of_nat n → P i g0 →
           ∃ g1, body i g0 = Done tt g1 ∧ P (i + 1) g1) →
  P lo g → ∃ g', for_loop n lo body g = Done tt g' ∧ P (lo + Z.of_nat n) g'.
Proof.
  revert lo g. induction n as [|n IH]; intros lo g Hbody HP; simpl.
  - exists g. split; [done|]. by replace (lo + Z.of_nat 0) with lo by lia.
  - destruct (Hbody lo g) as (g1 & Hg1 & HP1); [lia | done |].
    rewrite (bind_Done _ _ _ _ _ Hg1).
    destruct (IH (lo + 1) g1) as (g' & Hg' & HP'); [|done|].
    { intros i g0 Hi. apply Hbody. lia. }
    exists g'. split; [done|].
    by replace (lo + Z.of_nat (S n)) with (lo + 1 + Z.of_nat n) by lia.
Qed.

(** ** [initBoard]: the meshes, slot by slot *)

Lemma mesh_choice ind val :
  (if val =? 1 then write_mesh ind (Some doll_mesh)
   else if (1 <? val) && (val <? 6) then
     if val =? 2 then write_mesh ind (Some j_mesh)
     else if val =? 3 then write_mesh ind (Some pb_mesh)
     else if val =? 4 then write_mesh ind (Some bread_mesh)
     else write_mesh ind (Some cube_mesh)
   else write_mesh ind None) = write_mesh ind (mesh_of_code val).
Proof.
  unfold mesh_of_code.
  repeat match goal with |- context [if ?c then _ else _] => destruct c end; reflexivity.
Qed.

Lemma init_meshes_exact g :
  storage_ok g →
  ∃ ms, init_meshes g =
          Done tt (with_rotations (board_rotations g ++ replicate 25 quat_identity)
                     (with_meshes ms g)) ∧
        length ms = 25%nat ∧
        ∀ x y v, get_cell (board g) x y = Some v →
                 ms !! Z.to_nat (5 * x + y) = Some (mesh_of_code v).
Proof.
  intros [Hs Hm].
  set (Q := λ k g', ∃ ms,
    g' = with_rotations (board_rotations g ++ replicate (Z.to_nat k) quat_identity)
           (with_meshes ms g) ∧
    length ms = 25%nat ∧
    ∀ x y v, in_grid x y → 5 * x + y < k → get_cell (board g) x y = Some v →
             ms !! Z.to_nat (5 * x + y) = Some (mesh_of_code v)).
  assert (HQ0 : Q 0 g).
  { exists (board_meshes g). split_and!; [|done|].
    - simpl. rewrite app_nil_r. by destruct g.
    - intros x y v [Hx Hy] Hk. lia. }
  destruct (for_loop_steps (λ i, Q (5 * i))
    (λ i, for_range 0 (Y board_size) (λ j,
      val ← read_board i j;
      let ind := i * X board_size + j in
      (if val =? 1 then write_mesh ind (Some doll_mesh)
       else if (1 <? val) && (val <? 6) then
         if val =? 2 then write_mesh ind (Some j_mesh)
         else if val =? 3 then write_mesh ind (Some pb_mesh)
         else if val =? 4 then write_mesh ind (Some bread_mesh)
         else write_mesh ind (Some cube_mesh)
       else write_mesh ind None);;
      push_rotation)) 5 0 g) as (g' & Hg' & ms & -> & Hlen & Hms); [|exact HQ0|].
  - intros i g0 Hi HQ.
    destruct (for_loop_steps (λ j, Q (5 * i + j))
      (λ j, val ← read_board i j;
        let ind := i * X board_size + j in
        (if val =? 1 then write_mesh ind (Some doll_mesh)
         else if (1 <? val) && (val <? 6) then
           if val =? 2 then write_mesh ind (Some j_mesh)
           else if val =? 3 then write_mesh ind (Some pb_mesh)
           else if val =? 4 then write_mesh ind (Some bread_mesh)
           else write_mesh ind (Some cube_mesh)
         else write_mesh ind None);;
        push_rotation) 5 0 g0) as (g1 & Hg1 & HQ1).
    + clear g0 HQ. intros j g0 Hj (ms & -> & Hlen & Hms).
      set (g0 := with_rotations _ (with_meshes ms g)).
      destruct (read_board_Done i j g0) as (v & Hv & Hread); [done | split; lia |].
      rewrite (bind_Done _ _ _ _ _ Hread). cbv beta zeta. rewrite mesh_choice.
      destruct (write_mesh_Done (i * X board_size + j) (mesh_of_code v) g0)
        as (ms' & Hms' & Hlen' & Hw); [done | simpl; lia |].
      rewrite (bind_Done _ _ _ _ _ Hw). eexists. split; [reflexivity|].
      exists ms'. split_and!; [|done|].
      * unfold push_rotation, g0. simpl.
        replace (Z.to_nat (5 * i + (j + 1))) with (S (Z.to_nat (5 * i + j))) by lia.
        rewrite replicate_S_end, app_assoc. by destruct g.
      * intros x y v' Hin Hk Hv'.
        rewrite (get_set_slot _ _ _ _ Hms') by (unfold in_grid in Hin; lia).
        simpl. case_decide as Heq.
        -- assert (x = i ∧ y = j) as [-> ->] by (unfold in_grid in Hin; lia).
           simpl in Hv. congruence.
        -- apply Hms; [done | lia | done].
    + by replace (5 * i + 0) with (5 * i) by lia.
    + exists g1. split; [exact Hg1|].
      by replace (5 * (i + 1)) with (5 * i + Z.of_nat 5) by lia.
  - exists ms. split_and!; [exact Hg' | done |].
    intros x y v Hv. assert (Hin := get_cell_in_grid _ _ _ _ Hs Hv).
    apply Hms; [done | unfold in_grid in Hin; lia | done].
Qed.

Lemma initBoard_exact rand g :
  storage_ok g →
  ∃ b ms,
    initBoard rand g =
      Done tt {| board := b; chef := {| X := 2; Y := 2 |}; win := win g;
                 board_meshes := ms;
                 board_rotations := board_rotations g ++ replicate 25 quat_identity |} ∧
    place init_grid 0 (draws rand 4 0 fillIn) = Some b ∧
    shape5 b ∧ length ms = 25%nat ∧
    ∀ x y v, get_cell b x y = Some v →
             ms !! Z.to_nat (5 * x + y) = Some (mesh_of_code v).
Proof.
  intros [Hs Hm]. unfold initBoard.
  rewrite (bind_Done _ _ g tt (with_chef {| X := 2; Y := 2 |} g)) by reflexivity.
  cbv beta. rewrite (bind_Done _ _ _ _ _ (init_cells_spec (with_chef _ g) Hs)). cbv beta.
  destruct (spawnFood_spec rand fillIn
    (with_board init_grid (with_chef {| X := 2; Y := 2 |} g)))
    as (b & Hb & Hsb & Hspawn); [apply fillIn_in_grid | apply init_grid_shape |].
  rewrite decide_True in Hspawn by (simpl; lia).
  rewrite (bind_Done _ _ _ _ _ Hspawn). cbv beta.
  destruct (init_meshes_exact
    (with_board b (with_board init_grid (with_chef {| X := 2; Y := 2 |} g))))
    as (ms & Hmesh & Hlen & Hsync); [by split|].
  exists b, ms. rewrite Hmesh. by split_and!.
Qed.

(** A board determines the mesh table that is in step with it. *)
Lemma sync_unique b (ms ms' : list (option Mesh)) :
  shape5 b → length ms = 25%nat → length ms' = 25%nat →
  (∀ x y v, get_cell b x y = Some v → ms !! Z.to_nat (5 * x + y) = Some (mesh_of_code v)) →
  (∀ x y v, get_cell b x y = Some v → ms' !! Z.to_nat (5 * x + y) = Some (mesh_of_code v)) →
  ms = ms'.
Proof.
  intros Hs Hl Hl' H H'. apply (list_eq_same_length _ _ 25%nat); [done..|].
  intros i m m' Hi Hm Hm'.
  destruct (get_cell_Some b (Z.of_nat i / 5) (Z.of_nat i mod 5) Hs) as [v Hv].
  { unfold in_grid. split.
    - split; [apply Z.div_pos; lia | apply Z.div_lt_upper_bound; lia].
    - apply Z.mod_pos_bound. lia. }
  assert (Hidx : Z.to_nat (5 * (Z.of_nat i / 5) + Z.of_nat i mod 5) = i).
  { rewrite <- Z.div_mod by lia. apply Nat2Z.id. }
  specialize (H _ _ _ Hv). specialize (H' _ _ _ Hv). rewrite Hidx in H, H'. congruence.
Qed.

(** A board is determined by its 25 cells. *)
Lemma board_ext b b' :
  shape5 b → shape5 b' →
  (∀ x y, in_grid x y → get_cell b x y = get_cell b' x y) → b = b'.
Proof.
  intros [Hl Hr] [Hl' Hr'] Heq. apply (list_eq_same_length _ _ 5%nat); [done..|].
  intros i r r' Hi Hrow Hrow'.
  apply (list_eq_same_length _ _ 5%nat);
    [exact (Forall_lookup_1 _ _ _ _ Hr' Hrow') | exact (Forall_lookup_1 _ _ _ _ Hr Hrow) |].
  intros j a a' Hj Ha Ha'.
  specialize (Heq (Z.of_nat i) (Z.of_nat j)). unfold get_cell in Heq.
  replace ((0 <=? Z.of_nat i) && (0 <=? Z.of_nat j)) with true in Heq
    by (symmetry; apply andb_true_iff; lia).
  rewrite !Nat2Z.id, Hrow, Hrow' in Heq. simpl in Heq. rewrite Ha, Ha' in Heq.
  assert (Some a = Some a') by (apply Heq; unfold in_grid; lia). congruence.
Qed.

Lemma cells_holding_ext v b b' :
  (∀ x y, get_cell b' x y = Some v ↔ get_cell b x y = Some v) →
  cells_holding v b' = cells_holding v b.
Proof. intros H. apply list_filter_iff. intros [x y]. apply H. Qed.

Lemma cells_holding_elem v b x y :
  shape5 b → ((x, y) ∈ cells_holding v b ↔ get_cell b x y = Some v).
Proof.
  intros Hs. unfold cells_holding. rewrite list_elem_of_filter. simpl. split; [tauto|].
  intros Hv. split; [done|]. apply elem_of_all_cells. by eapply get_cell_in_grid.
Qed.

(** ** The states of play *)

Lemma fillIn_side c : c ∈ fillIn → inner c.1 c.2 = false ∧ side_square c.1 c.2 = true.
Proof.
  unfold fillIn. intros H.
  repeat (apply elem_of_cons in H as [->|H]); [by split..|].
  by apply elem_of_nil in H.
Qed.

Lemma init_grid_layout x y v :
  get_cell init_grid x y = Some v →
  if inner x y then v = 0 ∨ v = 1 else if side_square x y then 2 <= v <= 6 else v = 0.
Proof.
  intros Hv. assert (Hin := get_cell_in_grid _ _ _ _ init_grid_shape Hv).
  grid_cases x y Hin; vm_compute in Hv; simplify_eq; simpl; auto; lia.
Qed.

Lemma initBoard_Play rand g :
  storage_ok g →
  ∃ g', initBoard rand g = Done tt g' ∧ Play g' ∧ win g' = win g ∧
        chef g' = {| X := 2; Y := 2 |} ∧
        board_rotations g' = board_rotations g ++ replicate 25 quat_identity ∧
        place init_grid 0 (draws rand 4 0 fillIn) = Some (board g') ∧
        (∀ v, collectible v → ∃ c, cells_holding v (board g') = [c]).
Proof.
  intros Hok.
  destruct (initBoard_exact rand g Hok) as (b & ms & Hinit & Hb & Hs & Hl & Hsync).
  destruct (draws_fillIn rand) as (c0 & c1 & c2 & c3 & Hd & Hnd & Hsub).
  assert (Hb' := Hb). rewrite Hd in Hb'.
  destruct (initBoard_cells _ _ _ _ _ Hnd Hsub Hb') as (H3 & H2 & H4 & H5 & H1).
  assert (Hitems : ∀ v, collectible v → ∃ c, cells_holding v b = [c]).
  { intros v [-> | [-> | ->]]; eauto. }
  eexists. split; [exact Hinit|]. split_and!; try done.
  split_and!; simpl.
  - split; [by split|]. split; [unfold interior; simpl; lia | done].
  - intros x y v Hv. rewrite (place4_get _ _ _ _ _ _ Hb') in Hv.
    assert (Hside : ∀ c, c ∈ [c0; c1; c2; c3] → (x, y) = c →
              inner x y = false ∧ side_square x y = true).
    { intros c Hc <-. apply (fillIn_side (x, y)). by apply Hsub. }
    repeat case_decide;
      try match goal with
          | H : (x, y) = ?c |- _ =>
              destruct (Hside c) as [-> ->];
                [repeat constructor | exact H | simplify_eq; lia]
          end.
    by apply init_grid_layout.
  - done.
  - rewrite length_app. simpl. lia.
  - eauto.
  - intros v Hv. destruct (Hitems v Hv) as [c ->]. simpl. lia.
Qed.

Lemma interior_inner c : interior c → inner (X c) (Y c) = true.
Proof.
  intros [Hx Hy]. unfold inner. rewrite !andb_true_iff, !Z.leb_le. lia.
Qed.

Lemma inner_interior x y : inner x y = true → interior {| X := x; Y := y |}.
Proof.
  unfold inner, interior. rewrite !andb_true_iff, !Z.leb_le. simpl. lia.
Qed.

Lemma Play_chef_cell g :
  Play g → get_cell (board g) (X (chef g)) (Y (chef g)) = Some 1.
Proof.
  intros (([Hs _] & _ & H1) & _).
  by apply (cells_holding_iff _ _ _ Hs H1).
Qed.

(** A move of the chef keeps the states of play and touches no square
    that holds an item or the goal. *)
Lemma move_chef_Play step g :
  Play g → interior (step (chef g)) → step (chef g) ≠ chef g →
  ∃ g', move_chef step g = Done tt g' ∧ Play g' ∧
        chef g' = step (chef g) ∧ win g' = win g ∧
        board_rotations g' = board_rotations g ∧
        (∀ x y, get_cell (board g') x y =
           if decide (x = X (step (chef g)) ∧ y = Y (step (chef g))) then Some 1
           else if decide (x = X (chef g) ∧ y = Y (chef g)) then Some 0
           else get_cell (board g) x y) ∧
        (∀ x y, 0 <= x → 0 <= y → board_meshes g' !! Z.to_nat (5 * x + y) =
           if decide (5 * x + y = 5 * X (step (chef g)) + Y (step (chef g)))
           then Some (Some doll_mesh)
           else if decide (5 * x + y = 5 * X (chef g) + Y (chef g)) then Some None
           else board_meshes g !! Z.to_nat (5 * x + y)) ∧
        (∀ v, 2 <= v → cells_holding v (board g') = cells_holding v (board g)).
Proof.
  intros HP Hint' Hne. assert (Hchef := Play_chef_cell g HP).
  destruct HP as (HI & Hlay & Hsync & Hrot & Hgoal & Hitems).
  destruct (move_chef_Inv step g HI Hint' Hne) as (g' & Hmove & HI' & Hc' & Hw').
  destruct HI as ([Hs Hm] & Hint & H1).
  destruct (move_chef_spec step g (conj Hs Hm) Hint Hint')
    as (b0 & b1 & ms0 & ms1 & Hb0 & Hb1 & Hms0 & Hms1 & Hl & Hmove').
  rewrite Hmove in Hmove'. injection Hmove' as ->.
  assert (Hget : ∀ x y, get_cell b1 x y =
     if decide (x = X (step (chef g)) ∧ y = Y (step (chef g))) then Some 1
     else if decide (x = X (chef g) ∧ y = Y (chef g)) then Some 0
     else get_cell (board g) x y).
  { intros x y. by rewrite (get_set_cell _ _ _ _ _ Hb1), (get_set_cell _ _ _ _ _ Hb0). }
  assert (Hmesh : ∀ x y, 0 <= x → 0 <= y → ms1 !! Z.to_nat (5 * x + y) =
     if decide (5 * x + y = 5 * X (step (chef g)) + Y (step (chef g)))
     then Some (Some doll_mesh)
     else if decide (5 * x + y = 5 * X (chef g) + Y (chef g)) then Some None
     else board_meshes g !! Z.to_nat (5 * x + y)).
  { intros x y Hx Hy.
    rewrite (get_set_slot _ _ _ _ Hms1) by lia. case_decide; [done|].
    by rewrite (get_set_slot _ _ _ _ Hms0) by lia. }
  assert (Hcells : ∀ v, 2 <= v → cells_holding v b1 = cells_holding v (board g)).
  { intros v Hv. apply cells_holding_ext. intros x y. rewrite Hget.
    repeat case_decide; [| |done].
    - destruct H as [-> ->]. split; [intros [=]; lia|]. intros Hold.
      apply Hlay in Hold. rewrite interior_inner in Hold by done. lia.
    - destruct H0 as [-> ->]. split; [intros [=]; lia|]. rewrite Hchef. intros [=]. lia. }
  eexists. split; [exact Hmove|]. split_and!; try done. simpl in *.
  split_and!; simpl; try done.
  - intros x y v. rewrite Hget. repeat case_decide.
    + destruct H as [-> ->]. intros [= <-]. rewrite interior_inner by done. by right.
    + destruct H0 as [-> ->]. intros [= <-]. rewrite interior_inner by done. by left.
    + apply Hlay.
  - intros x y v Hv.
    assert (Hin : in_grid x y) by (eapply get_cell_in_grid; [|exact Hv]; eauto using set_cell_shape).
    rewrite Hget in Hv. rewrite Hmesh by (unfold in_grid in Hin; lia).
    unfold in_grid, interior in *. repeat case_decide; simplify_eq; try done; try lia.
    by apply Hsync.
  - destruct Hgoal as [c Hc]. exists c. rewrite Hcells; [done | unfold Goal; lia].
  - intros v Hv. rewrite Hcells; [by apply Hitems|].
    unfold collectible, PeanutButter, Jelly, Bread in Hv. lia.
Qed.

(** Picking up an item keeps the states of play; the square was the only
    one that held the ingredient, and the other codes stay where they
    were. *)
Lemma collect_Play g x y item b ms :
  Play g → get_cell (board g) x y = Some item → collectible item →
  set_cell (board g) x y 6 = Some b →
  set_slot (board_meshes g) (5 * x + y) None = Some ms →
  Play {| board := b; chef := chef g; win := collect item (win g);
          board_meshes := ms; board_rotations := board_rotations g |} ∧
  cells_holding item (board g) = [(x, y)] ∧
  cells_holding item b = [] ∧
  (∀ v, v ≠ item → v ≠ 6 → cells_holding v b = cells_holding v (board g)).
Proof.
  intros HP Hitem Hc Hb Hms. assert (Hchef := Play_chef_cell g HP).
  destruct HP as (HI & Hlay & Hsync & Hrot & Hgoal & Hitems).
  assert (Hs : shape5 (board g)) by apply HI.
  assert (Hin := get_cell_in_grid _ _ _ _ Hs Hitem).
  assert (Hrange : 2 <= item <= 4).
  { unfold collectible, PeanutButter, Jelly, Bread in Hc. lia. }
  assert (Hget := get_set_cell _ _ _ _ _ Hb).
  assert (Hone : cells_holding item (board g) = [(x, y)]).
  { assert (Hel : (x, y) ∈ cells_holding item (board g)) by by apply cells_holding_elem.
    specialize (Hitems item Hc).
    destruct (cells_holding item (board g)) as [|c [|c' l]]; simpl in Hitems; [|  | lia].
    - by apply elem_of_nil in Hel.
    - apply list_elem_of_singleton in Hel. by subst. }
  assert (Hcells : ∀ v, v ≠ item → v ≠ 6 →
            cells_holding v b = cells_holding v (board g)).
  { intros v Hv1 Hv2. apply cells_holding_ext. intros x' y'. rewrite Hget.
    case_decide as Heq; [|done]. destruct Heq as [-> ->].
    rewrite Hitem. split; intros [=]; congruence. }
  assert (Hside : inner x y = false ∧ side_square x y = true).
  { specialize (Hlay _ _ _ Hitem).
    destruct (inner x y); [lia|]. destruct (side_square x y); [done | lia]. }
  split_and!; try done.
  - split_and!; simpl; try done.
    + eapply collect_Inv; try done.
      * intros Heq. unfold pos in Heq. injection Heq as -> ->.
        rewrite Hchef in Hitem. injection Hitem as <-. lia.
      * rewrite (set_slot_length _ _ _ _ Hms). apply HI.
    + intros x' y' v. rewrite Hget. case_decide as Heq; [|apply Hlay].
      destruct Heq as [-> ->]. intros [= <-]. destruct Hside as [-> ->]. lia.
    + intros x' y' v Hv.
      assert (Hin' : in_grid x' y')
        by (eapply get_cell_in_grid; [|exact Hv]; eauto using set_cell_shape).
      rewrite Hget in Hv.
      rewrite (get_set_slot _ _ _ _ Hms) by (unfold in_grid in Hin'; lia).
      unfold in_grid in *. repeat case_decide; simplify_eq; try done; try lia.
      by apply Hsync.
    + destruct Hgoal as [c Hg]. exists c.
      rewrite Hcells; [done | unfold Goal; lia | unfold Goal; lia].
    + intros v Hv. destruct (decide (v = item)) as [->|Hne].
      * rewrite (cells_holding_none b item); [simpl; lia|].
        intros x' y'. rewrite Hget. case_decide as Heq; [intros [=]; lia|].
        intros Hv'. apply Heq.
        assert (Hel : (x', y') ∈ cells_holding item (board g))
          by by apply cells_holding_elem.
        rewrite Hone in Hel. apply list_elem_of_singleton in Hel. by simplify_eq.
      * rewrite Hcells; [by apply Hitems | done |].
        unfold collectible, PeanutButter, Jelly, Bread in Hv. lia.
  - apply cells_holding_none. intros x' y'. rewrite Hget.
    case_decide as Heq; [intros [=]; lia|].
    intros Hv'. apply Heq.
    assert (Hel : (x', y') ∈ cells_holding item (board g)) by by apply cells_holding_elem.
    rewrite Hone in Hel. apply list_elem_of_singleton in Hel. by simplify_eq.
Qed.

(** What an arrow press does to a state of play: the chef moves, an
    ingredient is picked up, the round is won, or nothing happens. *)
Lemma press_Play rand k g :
  is_arrow k = true → Play g →
  ∃ g', handle_event rand (arrow k) g = Done true g' ∧ Play g' ∧
    ((interior (step_of k (chef g)) ∧
      chef g' = step_of k (chef g) ∧ win g' = win g ∧
      board_rotations g' = board_rotations g ∧
      (∀ v, 2 <= v → cells_holding v (board g') = cells_holding v (board g)))
     ∨ (∃ item, collectible item ∧ ¬ interior (step_of k (chef g)) ∧
        get_cell (board g) (X (step_of k (chef g))) (Y (step_of k (chef g))) = Some item ∧
        chef g' = chef g ∧ win g' = collect item (win g) ∧
        board_rotations g' = board_rotations g ∧
        cells_holding item (board g) = [pos (step_of k (chef g))] ∧
        cells_holding item (board g') = [] ∧
        (∀ v, v ≠ item → v ≠ 6 → cells_holding v (board g') = cells_holding v (board g)))
     ∨ (¬ interior (step_of k (chef g)) ∧
        get_cell (board g) (X (step_of k (chef g))) (Y (step_of k (chef g))) = Some Goal ∧
        win_all (win g) = true ∧
        ∃ g1, initBoard rand (with_win no_flags g) = Done tt g1 ∧
              move_chef (step_of k) g1 = Done tt g' ∧
              chef g' = step_of k {| X := 2; Y := 2 |} ∧ win g' = no_flags ∧
              board_rotations g' = board_rotations g ++ replicate 25 quat_identity ∧
              place init_grid 0 (draws rand 4 0 fillIn) = Some (board g1) ∧
              (∀ x y, get_cell (board g') x y =
                 if decide (x = X (step_of k {| X := 2; Y := 2 |}) ∧
                            y = Y (step_of k {| X := 2; Y := 2 |})) then Some 1
                 else if decide (x = 2 ∧ y = 2) then Some 0
                 else get_cell (board g1) x y) ∧
              (∀ v, collectible v → ∃ c, cells_holding v (board g') = [c]))
     ∨ (¬ interior (step_of k (chef g)) ∧ g' = g)).
Proof.
  intros Hk HP. assert (HI : Inv g) by apply HP.
  destruct (arrow_facts k (chef g) Hk) as (_ & Hne & _ & _ & _); [apply HI|].
  destruct (decide (interior (step_of k (chef g)))) as [Hint|Hint].
  - destruct (press_moves rand k g Hk HI Hint) as (g' & Hh & _ & _ & _ & Hmove).
    destruct (move_chef_Play (step_of k) g HP Hint Hne)
      as (g'' & Hmove' & HP' & Hc & Hw & Hr & _ & _ & Hcells).
    rewrite Hmove in Hmove'. injection Hmove' as <-.
    exists g'. split_and!; [done..|]. left. by split_and!.
  - destruct (press_edge_cases rand k g Hk HI Hint)
      as (item & Hitem & [(Hc & b & ms & Hb & Hms & Hh & _)
                         |[(-> & Hw & g1 & g2 & Hinit & Hmove & Hh & _)|(_ & _ & Hh)]]).
    + destruct (collect_Play g _ _ item b ms HP Hitem Hc Hb Hms)
        as (HP' & Hone & Hnone & Hcells).
      eexists. split; [exact Hh|]. split; [done|].
      right; left. exists item. by split_and!.
    + destruct (initBoard_Play rand (with_win no_flags g))
        as (g1' & Hinit' & HP1 & Hw1 & Hc1 & Hr1 & Hb1 & Hit1); [apply HI|].
      rewrite Hinit in Hinit'. injection Hinit' as <-.
      destruct (arrow_facts k {| X := 2; Y := 2 |} Hk) as (_ & Hne2 & _ & Hcan2 & _).
      { unfold interior. simpl. lia. }
      destruct (move_chef_Play (step_of k) g1 HP1)
        as (g2' & Hmove' & HP2 & Hc2 & Hw2 & Hr2 & Hget2 & _ & Hcells2).
      { rewrite Hc1. apply Hcan2. by destruct k. }
      { by rewrite Hc1. }
      rewrite Hmove in Hmove'. injection Hmove' as <-.
      exists g2. split_and!; [done..|].
      right; right; left. split_and!; [done..|].
      exists g1. split_and!; try done.
      * by rewrite Hc2, Hc1.
      * by rewrite Hw2, Hw1.
      * by rewrite Hr2, Hr1.
      * intros x y. rewrite Hget2, Hc1. reflexivity.
      * intros v Hv. rewrite Hcells2; [by apply Hit1|].
        unfold collectible, PeanutButter, Jelly, Bread in Hv. lia.
    + exists g. split_and!; [done..|]. right; right; right. by split.
Qed.

Lemma handle_event_Play rand evt g :
  Play g → ∃ r g', handle_event rand evt g = Done r g' ∧ Play g'.
Proof.
  intros HP. destruct (arrow_press evt) eqn:Hp.
  - assert (Hk : is_arrow (key_scancode evt) = true).
    { unfold arrow_press in Hp. by apply andb_true_iff in Hp as [_ ?]. }
    rewrite (arrow_press_eq evt Hp).
    destruct (press_Play rand _ g Hk HP) as (g' & Hh & HP' & _). eauto.
  - rewrite handle_event_other by done. eauto.
Qed.

Lemma run_Play cs g : Play g → ∃ g', run cs g = Done tt g' ∧ Play g'.
Proof.
  revert g. induction cs as [|c cs IH]; intros g HP; [by exists g|].
  assert (Hc : ∃ g1, do_call c g = Done tt g1 ∧ Play g1).
  { destruct c as [rand|rand evt]; simpl.
    - destruct (initBoard_Play rand g) as (g1 & Hg1 & HP1 & _); [apply HP|]. eauto.
    - destruct (handle_event_Play rand evt g HP) as (r & g1 & Hg1 & HP1).
      exists g1. by rewrite (bind_Done _ _ _ _ _ Hg1). }
  destruct Hc as (g1 & Hg1 & HP1). destruct (IH g1 HP1) as (g' & Hg' & HP').
  exists g'. simpl. by rewrite (bind_Done _ _ _ _ _ Hg1).
Qed.

Lemma run_first rand cs g0 g1 :
  initBoard rand g0 = Done tt g1 → run (Initialize rand :: cs) g0 = run cs g1.
Proof.
  intros Hinit. change (run (Initialize rand :: cs)) with (initBoard rand;; run cs).
  by rewrite (bind_Done _ _ _ _ _ Hinit).
Qed.

Lemma side_square_fillIn x y :
  in_grid x y → side_square x y = true → (x, y) ∈ fillIn.
Proof.
  intros Hin. grid_cases x y Hin; intros Hs; try discriminate Hs;
    apply (bool_decide_unpack _); vm_compute; exact I.
Qed.

Lemma flag_of_collect_same item w :
  collectible item → flag_of item (collect item w) = true.
Proof. intros [-> | [-> | ->]]; reflexivity. Qed.

Lemma flag_of_collect_other item v w :
  collectible item → collectible v → v ≠ item →
  flag_of v (collect item w) = flag_of v w.
Proof.
  unfold collectible, PeanutButter, Jelly, Bread.
  intros [-> | [-> | ->]] [-> | [-> | ->]] Hne; try done; by destruct w.
Qed.

Lemma flags_le_collect item w : flags_le w (collect item w).
Proof.
  unfold flags_le, collect.
  destruct (item =? 3), (item =? 2); simpl; tauto.
Qed.

(** ** [initBoard] and the size of [board_meshes] *)







(** ** The layout of the board *)

(** X2.  After [initBoard] and any further calls, the four corners hold 0,
    an inner square holds 0 or 1, and a side square holds an item, the
    goal or 6: no item and no goal ever lies on an inner square or a
    corner, and the chef never stands on a side square. *)
Theorem board_layout rand cs g0 :
  storage_ok g0 →
  ∃ g, run (Initialize rand :: cs) g0 = Done tt g ∧
       ∀ x y v, get_cell (board g) x y = Some v →
         if inner x y then v = Empty ∨ v = Character
         else if side_square x y then Jelly <= v <= OutOfPlay
         else v = Empty.
Proof.
  intros Hok. destruct (initBoard_Play rand g0 Hok) as (g1 & Hinit & HP1 & _).
  destruct (run_Play cs g1 HP1) as (g & Hrun & HP).
  exists g. rewrite (run_first _ _ _ _ Hinit). split; [done|]. apply HP.
Qed.

Lemma board_layout_witness :
  ∃ g, run (Initialize rand0 :: [press SDL_SCANCODE_UP; press SDL_SCANCODE_RIGHT]) blank
         = Done tt g ∧
       ∀ x y v, get_cell (board g) x y = Some v →
         if inner x y then v = Empty ∨ v = Character
         else if side_square x y then Jelly <= v <= OutOfPlay
         else v = Empty.
Proof. apply (board_layout rand0 _ blank). exact blank_ok. Defined.

(** ** The goal and the ingredients *)

(** X3.  After [initBoard] and any further calls there is exactly one
    goal square, it is one of the twelve squares of [fillIn], and no
    ingredient lies on more than one square: nothing but a new round
    moves or removes the goal. *)
Theorem one_goal_square rand cs g0 :
  storage_ok g0 →
  ∃ g c, run (Initialize rand :: cs) g0 = Done tt g ∧
         cells_holding Goal (board g) = [c] ∧ c ∈ fillIn ∧
         ∀ v, collectible v → (length (cells_holding v (board g)) ≤ 1)%nat.
Proof.
  intros Hok. destruct (initBoard_Play rand g0 Hok) as (g1 & Hinit & HP1 & _).
  destruct (run_Play cs g1 HP1) as (g & Hrun & HP).
  destruct HP as (HI & Hlay & _ & _ & [[x y] Hc] & Hitems).
  exists g, (x, y). rewrite (run_first _ _ _ _ Hinit). split_and!; try done.
  assert (Hs : shape5 (board g)) by apply HI.
  assert (Hv : get_cell (board g) x y = Some Goal).
  { apply (cells_holding_elem _ _ _ _ Hs). rewrite Hc. by apply list_elem_of_singleton. }
  assert (Hin := get_cell_in_grid _ _ _ _ Hs Hv).
  apply side_square_fillIn; [done|]. apply Hlay in Hv. unfold Goal in Hv.
  destruct (inner x y); [lia|]. destruct (side_square x y); [done | lia].
Qed.

Lemma one_goal_square_witness :
  ∃ g c, run (Initialize rand0 :: [press SDL_SCANCODE_DOWN; press SDL_SCANCODE_LEFT;
                                   press SDL_SCANCODE_LEFT]) blank = Done tt g ∧
         cells_holding Goal (board g) = [c] ∧ c ∈ fillIn ∧
         ∀ v, collectible v → (length (cells_holding v (board g)) ≤ 1)%nat.
Proof. apply (one_goal_square rand0 _ blank). exact blank_ok. Defined.

Lemma handle_event_mirror rand evt g :
  Play g → flags_mirror g →
  ∃ r g', handle_event rand evt g = Done r g' ∧ Play g' ∧ flags_mirror g'.
Proof.
  intros HP Hmir. destruct (arrow_press evt) eqn:Hp.
  - assert (Hk : is_arrow (key_scancode evt) = true).
    { unfold arrow_press in Hp. by apply andb_true_iff in Hp as [_ ?]. }
    rewrite (arrow_press_eq evt Hp).
    destruct (press_Play rand _ g Hk HP)
      as (g' & Hh & HP' &
          [(_ & _ & Hw & _ & Hcells)
          |[(item & Hc & _ & _ & _ & Hw & _ & _ & Hnone & Hcells)
           |[(_ & _ & _ & g1 & _ & _ & _ & Hw & _ & _ & _ & Hit)|(_ & Heq)]]]);
      exists true, g'; (split; [done|]); (split; [done|]); try (by subst g').
    + intros v Hv. rewrite Hw, Hcells; [by apply Hmir|].
      unfold collectible, PeanutButter, Jelly, Bread in Hv. lia.
    + intros v Hv. rewrite Hw. destruct (decide (v = item)) as [->|Hne].
      * by rewrite flag_of_collect_same, Hnone.
      * rewrite flag_of_collect_other by done. rewrite Hcells; [by apply Hmir | done |].
        unfold collectible, PeanutButter, Jelly, Bread in Hv. lia.
    + intros v Hv. rewrite Hw.
      replace (flag_of v no_flags) with false by (unfold flag_of; by repeat case_match).
      by apply Hit.
  - rewrite handle_event_other by done. eauto.
Qed.

(** X4.  In a game (the constructor's [initBoard] on an object with no
    flag set, then calls of [handle_event] only), the flags mirror the
    board: a flag is set exactly when its ingredient is gone from the
    board, and while it is not set the ingredient lies on exactly one
    square. *)
Theorem flags_mirror_board rand cs g0 :
  storage_ok g0 → win g0 = no_flags → forallb is_press cs = true →
  ∃ g, run (Initialize rand :: cs) g0 = Done tt g ∧
       ∀ v, collectible v →
         if flag_of v (win g) then cells_holding v (board g) = []
         else ∃ c, cells_holding v (board g) = [c].
Proof.
  intros Hok Hw0 Hcs.
  destruct (initBoard_Play rand g0 Hok) as (g1 & Hinit & HP1 & Hw1 & _ & _ & _ & Hit1).
  rewrite (run_first _ _ _ _ Hinit).
  assert (Hmir1 : flags_mirror g1).
  { intros v Hv. rewrite Hw1, Hw0.
    replace (flag_of v no_flags) with false by (unfold flag_of; by repeat case_match).
    by apply Hit1. }
  clear Hinit Hw1 Hit1 Hok Hw0. revert g1 HP1 Hmir1.
  induction cs as [|c cs IH]; intros g1 HP1 Hmir1; [by exists g1|].
  simpl in Hcs. apply andb_true_iff in Hcs as [Hc Hcs].
  destruct c as [r|r evt]; [discriminate|].
  destruct (handle_event_mirror r evt g1 HP1 Hmir1) as (b & g2 & Hh & HP2 & Hmir2).
  destruct (IH Hcs g2 HP2 Hmir2) as (g & Hrun & Hg).
  exists g. split; [|done]. simpl.
  rewrite (bind_Done _ _ g1 tt g2); [done|]. by rewrite (bind_Done _ _ _ _ _ Hh).
Qed.

Lemma flags_mirror_board_witness :
  ∃ g, run (Initialize rand0 :: [press SDL_SCANCODE_DOWN; press SDL_SCANCODE_DOWN;
                                 press SDL_SCANCODE_RIGHT; press SDL_SCANCODE_DOWN]) blank
         = Done tt g ∧
       ∀ v, collectible v →
         if flag_of v (win g) then cells_holding v (board g) = []
         else ∃ c, cells_holding v (board g) = [c].
Proof.
  apply (flags_mirror_board rand0 _ blank); [exact blank_ok | reflexivity | reflexivity].
Defined.

(** ** A press that wins the round *)

(** X5.  When the chef stands next to the goal with the three flags set
    and the arrow towards the goal is pressed, [handle_event] clears the
    flags, runs [initBoard] and then, the chef being on (2,2) again, also
    moves it: the chef ends one step from (2,2) in the direction pressed,
    (2,2) is empty, the side squares are those of the new round and 25
    rotations were appended. *)
Theorem winning_press rand k g :
  is_arrow k = true → Inv g → ¬ interior (step_of k (chef g)) →
  get_cell (board g) (X (step_of k (chef g))) (Y (step_of k (chef g))) = Some Goal →
  win_all (win g) = true →
  ∃ g' b,
    handle_event rand (arrow k) g = Done true g' ∧
    chef g' = step_of k {| X := 2; Y := 2 |} ∧
    win g' = no_flags ∧
    get_cell (board g') 2 2 = Some Empty ∧
    get_cell (board g') (X (chef g')) (Y (chef g')) = Some Character ∧
    place init_grid 0 (draws rand 4 0 fillIn) = Some b ∧
    (∀ x y, side_square x y = true → get_cell (board g') x y = get_cell b x y) ∧
    board_rotations g' = board_rotations g ++ replicate 25 quat_identity.
Proof.
  intros Hk HI Hint Hgoal Hw.
  destruct (press_edge_cases rand k g Hk HI Hint)
    as (item & Hitem & [(Hc & _)|[(_ & _ & g1 & g2 & Hinit & Hmove & Hh & _)|(_ & Hn & _)]]).
  - rewrite Hgoal in Hitem. injection Hitem as <-.
    unfold collectible, Goal, PeanutButter, Jelly, Bread in Hc. lia.
  - destruct (initBoard_Play rand (with_win no_flags g))
      as (g1' & Hinit' & HP1 & Hw1 & Hc1 & Hr1 & Hb1 & _); [apply HI|].
    rewrite Hinit in Hinit'. injection Hinit' as <-.
    destruct (arrow_facts k {| X := 2; Y := 2 |} Hk) as (_ & Hne2 & _ & Hcan2 & _).
    { unfold interior. simpl. lia. }
    assert (Hint2 : interior (step_of k {| X := 2; Y := 2 |})) by (apply Hcan2; by destruct k).
    destruct (move_chef_Play (step_of k) g1 HP1)
      as (g2' & Hmove' & HP2 & Hc2 & Hw2 & Hr2 & Hget2 & _); [by rewrite Hc1..|].
    rewrite Hmove in Hmove'. injection Hmove' as <-.
    rewrite Hc1 in Hc2, Hget2.
    exists g2, (board g1). split_and!; try done.
    + by rewrite Hw2, Hw1.
    + rewrite Hget2. rewrite decide_False.
      * by rewrite decide_True.
      * intros [H1 H2]. destruct k; try discriminate; simpl in *; lia.
    + rewrite Hget2, Hc2. by rewrite decide_True.
    + intros x y Hside. rewrite Hget2.
      assert (Hni : ∀ c, interior c → side_square (X c) (Y c) = false).
      { intros [cx cy] [Hx Hy]. simpl in *. unfold side_square.
        repeat match goal with
               | |- context [?a =? ?b] => destruct (Z.eqb_spec a b); try lia
               end; reflexivity. }
      repeat case_decide; try done.
      * destruct H as [-> ->]. by rewrite Hni in Hside.
      * destruct H0 as [-> ->]. discriminate.
    + by rewrite Hr2, Hr1.
  - exfalso. apply Hn. split; [|done]. rewrite Hgoal in Hitem. by injection Hitem as <-.
Qed.

Lemma winning_press_witness :
  ∃ g' b,
    handle_event rand0 (arrow SDL_SCANCODE_LEFT) ready = Done true g' ∧
    chef g' = step_of SDL_SCANCODE_LEFT {| X := 2; Y := 2 |} ∧
    win g' = no_flags ∧
    get_cell (board g') 2 2 = Some Empty ∧
    get_cell (board g') (X (chef g')) (Y (chef g')) = Some Character ∧
    place init_grid 0 (draws rand0 4 0 fillIn) = Some b ∧
    (∀ x y, side_square x y = true → get_cell (board g') x y = get_cell b x y) ∧
    board_rotations g' = board_rotations ready ++ replicate 25 quat_identity.
Proof.
  apply (winning_press rand0 SDL_SCANCODE_LEFT ready).
  - reflexivity.
  - exact ready_Inv.
  - vm_compute. intros [_ [H _]]. apply H. reflexivity.
  - vm_compute. reflexivity.
  - vm_compute. reflexivity.
Defined.

(** ** Flags are only cleared by a win *)

(** X7.  In a state of play, a call of [handle_event] either keeps every
    flag that was set, or it found the three flags set and leaves all
    three cleared: no single ingredient is ever taken back. *)
Theorem flags_only_cleared_by_win rand evt g :
  Inv g →
  ∃ r g', handle_event rand evt g = Done r g' ∧
          (flags_le (win g) (win g') ∨ (win_all (win g) = true ∧ win g' = no_flags)).
Proof.
  intros HI. destruct (arrow_press evt) eqn:Hp.
  - assert (Hk : is_arrow (key_scancode evt) = true).
    { unfold arrow_press in Hp. by apply andb_true_iff in Hp as [_ ?]. }
    rewrite (arrow_press_eq evt Hp).
    destruct (decide (interior (step_of (key_scancode evt) (chef g)))) as [Hint|Hint].
    + destruct (press_moves rand _ g Hk HI Hint) as (g' & Hh & _ & _ & Hw & _).
      exists true, g'. split; [done|]. left. rewrite Hw. unfold flags_le. tauto.
    + destruct (press_edge_cases rand _ g Hk HI Hint)
        as (item & _ & [(_ & b & ms & _ & _ & Hh & _)
                       |[(_ & Hw & g1 & g2 & _ & _ & Hh & _ & _ & Hw2)|(_ & _ & Hh)]]).
      * eexists true, _. split; [exact Hh|]. left. apply flags_le_collect.
      * exists true, g2. split; [done|]. by right.
      * exists true, g. split; [done|]. left. unfold flags_le. tauto.
  - rewrite handle_event_other by done. exists false, g. split; [done|].
    left. unfold flags_le. tauto.
Qed.

Lemma flags_only_cleared_by_win_witness :
  ∃ r g', handle_event rand0 (arrow SDL_SCANCODE_DOWN) below_jelly = Done r g' ∧
          (flags_le (win below_jelly) (win g') ∨
           (win_all (win below_jelly) = true ∧ win g' = no_flags)).
Proof.
  apply (flags_only_cleared_by_win rand0 (arrow SDL_SCANCODE_DOWN) below_jelly).
  split; [exact below_jelly_ok|]. split; [vm_compute; by intuition discriminate|].
  vm_compute. reflexivity.
Defined.

(** ** [initBoard] forgets the round before *)

(** X8.  [initBoard] overwrites the whole board, the chef and every mesh
    slot: what it leaves depends on the draws, on the flags and on
    [board_rotations] only, not on the board, the position or the meshes
    of the round before. *)
Theorem initBoard_forgets rand g1 g2 :
  storage_ok g1 → storage_ok g2 →
  win g1 = win g2 → board_rotations g1 = board_rotations g2 →
  initBoard rand g1 = initBoard rand g2 ∧
  ∃ g', initBoard rand g1 = Done tt g'.
Proof.
  intros Hok1 Hok2 Hw Hr.
  destruct (initBoard_exact rand g1 Hok1) as (b1 & ms1 & Hi1 & Hb1 & Hs1 & Hl1 & Hm1).
  destruct (initBoard_exact rand g2 Hok2) as (b2 & ms2 & Hi2 & Hb2 & Hs2 & Hl2 & Hm2).
  rewrite Hb1 in Hb2. injection Hb2 as <-.
  rewrite (sync_unique b1 ms1 ms2 Hs1 Hl1 Hl2 Hm1 Hm2) in Hi1.
  split; [|eauto]. rewrite Hi1, Hi2. by rewrite Hw, Hr.
Qed.

Lemma initBoard_forgets_witness :
  initBoard rand0 ready = initBoard rand0 (with_win (win ready) round0) ∧
  ∃ g', initBoard rand0 ready = Done tt g'.
Proof.
  apply (initBoard_forgets rand0 ready (with_win (win ready) round0)).
  - exact ready_ok.
  - vm_compute. split; [split; [done | by repeat constructor] | done].
  - vm_compute. reflexivity.
  - vm_compute. reflexivity.
Defined.

(** ** [board_rotations] grows *)

(** X9.  Every call of [initBoard] appends 25 rotations to
    [board_rotations] and keeps the ones that were there: the vector is
    never cleared, so it grows by 25 with every round. *)
Theorem initBoard_appends_rotations rand g :
  storage_ok g →
  ∃ g', initBoard rand g = Done tt g' ∧
        board_rotations g' = board_rotations g ++ replicate 25 quat_identity ∧
        length (board_rotations g') = (length (board_rotations g) + 25)%nat.
Proof.
  intros Hok. destruct (initBoard_exact rand g Hok) as (b & ms & Hinit & _).
  eexists. split; [exact Hinit|]. simpl. split; [done|].
  rewrite length_app. reflexivity.
Qed.

Lemma initBoard_appends_rotations_witness :
  ∃ g', initBoard rand0 round0 = Done tt g' ∧
        board_rotations g' = board_rotations round0 ++ replicate 25 quat_identity ∧
        length (board_rotations g') = (length (board_rotations round0) + 25)%nat.
Proof.
  apply (initBoard_appends_rotations rand0 round0).
  vm_compute. split; [split; [done | by repeat constructor] | done].
Defined.

(** ** A move and the move back *)

Lemma step_back k c : step_of (opposite k) (step_of k c) = c.
Proof. destruct k, c; simpl; unfold x_plus_1, x_minus_1, y_plus_1, y_minus_1; simpl; f_equal; lia. Qed.

(** X6.  In a state of play, an arrow press that moves the chef followed
    by a press of the opposite arrow gives back the very same state:
    board, chef, flags, meshes and rotations. *)
Theorem move_and_back r1 r2 k g :
  is_arrow k = true → Play g → interior (step_of k (chef g)) →
  ∃ g1, handle_event r1 (arrow k) g = Done true g1 ∧
        chef g1 = step_of k (chef g) ∧
        handle_event r2 (arrow (opposite k)) g1 = Done true g.
Proof.
  intros Hk HP Hint. assert (HI : Inv g) by apply HP.
  assert (Hchef := Play_chef_cell g HP).
  destruct (arrow_facts k (chef g) Hk) as (_ & Hne & _ & _ & _); [apply HI|].
  destruct (press_moves r1 k g Hk HI Hint) as (g1 & Hh1 & _ & _ & _ & Hmove1).
  destruct (move_chef_Play (step_of k) g HP Hint Hne)
    as (g1' & Hmove1' & HP1 & Hc1 & Hw1 & Hr1 & Hget1 & Hmesh1 & _).
  rewrite Hmove1 in Hmove1'. injection Hmove1' as <-.
  assert (Hback : step_of (opposite k) (chef g1) = chef g) by (rewrite Hc1; apply step_back).
  assert (Hk' : is_arrow (opposite k) = true) by by destruct k.
  assert (Hint1 : interior (step_of (opposite k) (chef g1))) by (rewrite Hback; apply HI).
  assert (Hne1 : step_of (opposite k) (chef g1) ≠ chef g1) by (rewrite Hback, Hc1; congruence).
  destruct (press_moves r2 (opposite k) g1 Hk' (proj1 HP1) Hint1)
    as (g2 & Hh2 & _ & _ & _ & Hmove2).
  destruct (move_chef_Play (step_of (opposite k)) g1 HP1 Hint1 Hne1)
    as (g2' & Hmove2' & HP2 & Hc2 & Hw2 & Hr2 & Hget2 & Hmesh2 & _).
  rewrite Hmove2 in Hmove2'. injection Hmove2' as <-.
  exists g1. split_and!; [done..|]. rewrite Hh2. f_equal.
  rewrite Hback, Hc1 in Hget2, Hmesh2.
  assert (Hs : shape5 (board g)) by apply HI.
  assert (Hs2 : shape5 (board g2)) by apply HP2.
  assert (Hlen : length (board_meshes g) = 25%nat) by apply HI.
  assert (Hlen2 : length (board_meshes g2) = 25%nat) by apply HP2.
  destruct HP as (_ & Hlay & Hsync & _).
  assert (Hstep : get_cell (board g) (X (step_of k (chef g))) (Y (step_of k (chef g))) = Some 0).
  { destruct (get_cell_Some (board g) (X (step_of k (chef g))) (Y (step_of k (chef g))) Hs)
      as [v Hv]; [unfold in_grid, interior in *; lia|].
    assert (Hl := Hlay _ _ _ Hv). rewrite interior_inner in Hl by done.
    destruct Hl as [->| ->]; [done|]. exfalso. apply Hne.
    destruct HI as ([_ _] & _ & H1).
    apply (cells_holding_iff _ _ _ Hs H1) in Hv. unfold pos in Hv.
    destruct (step_of k (chef g)), (chef g). simpl in *. congruence. }
  assert (Hboard : board g2 = board g).
  { apply board_ext; [done..|]. intros x y _. rewrite Hget2, Hget1.
    repeat case_decide; try done.
    - destruct H as [-> ->]. by rewrite Hchef.
    - destruct H0 as [-> ->]. by rewrite Hstep. }
  assert (Hmeshes : board_meshes g2 = board_meshes g).
  { apply (list_eq_same_length _ _ 25%nat); [done..|].
    intros i m m' Hi Hm Hm'.
    assert (Hidx : Z.to_nat (5 * (Z.of_nat i / 5) + Z.of_nat i mod 5) = i).
    { rewrite <- Z.div_mod by lia. apply Nat2Z.id. }
    assert (Hx : 0 <= Z.of_nat i / 5 < 5).
    { split; [apply Z.div_pos; lia | apply Z.div_lt_upper_bound; lia]. }
    assert (Hy : 0 <= Z.of_nat i mod 5 < 5) by (apply Z.mod_pos_bound; lia).
    specialize (Hmesh2 (Z.of_nat i / 5) (Z.of_nat i mod 5) (proj1 Hx) (proj1 Hy)).
    specialize (Hmesh1 (Z.of_nat i / 5) (Z.of_nat i mod 5) (proj1 Hx) (proj1 Hy)).
    assert (Hsc := Hsync _ _ _ Hchef). assert (Hss := Hsync _ _ _ Hstep).
    set (idx := 5 * (Z.of_nat i / 5) + Z.of_nat i mod 5) in *.
    rewrite Hidx in Hmesh1, Hmesh2. rewrite Hmesh2 in Hm.
    destruct (decide (idx = 5 * X (chef g) + Y (chef g))) as [E|NE].
    - rewrite <- E, Hidx in Hsc. rewrite Hsc in Hm'.
      change (mesh_of_code 1) with (Some doll_mesh) in Hm'. congruence.
    - destruct (decide (idx = 5 * X (step_of k (chef g)) + Y (step_of k (chef g))))
        as [E'|NE'].
      + rewrite <- E', Hidx in Hss. rewrite Hss in Hm'.
        change (mesh_of_code 0) with (@None Mesh) in Hm'. congruence.
      + rewrite Hmesh1 in Hm. congruence. }
  destruct g, g2. simpl in *. by subst.
Qed.

Lemma round0_Play : Play round0.
Proof.
  destruct (initBoard_Play rand0 blank blank_ok) as (g' & Hrun & HP & _).
  rewrite round0_run in Hrun. assert (round0 = g') as -> by congruence. exact HP.
Qed.

Lemma move_and_back_witness :
  ∃ g1, handle_event rand0 (arrow SDL_SCANCODE_UP) round0 = Done true g1 ∧
        chef g1 = step_of SDL_SCANCODE_UP (chef round0) ∧
        handle_event rand0 (arrow (opposite SDL_SCANCODE_UP)) g1 = Done true round0.
Proof.
  apply (move_and_back rand0 rand0 SDL_SCANCODE_UP round0).
  - reflexivity.
  - exact round0_Play.
  - vm_compute. intuition discriminate.
Defined.

(** ** [spawnFood] on any list of candidates *)

(** X10.  Given at least four candidate squares of the board, no two the
    same, [spawnFood] returns; it writes PB, J, bread and the goal to four
    candidates, no two the same, and changes no other square and no other
    field. *)
Theorem spawnFood_places rand cs g :
  cells_in_grid cs → NoDup cs → (4 ≤ length cs)%nat → shape5 (board g) →
  ∃ c0 c1 c2 c3 b',
    spawnFood rand cs g = Done tt (with_board b' g) ∧
    draws rand 4 0 cs = [c0; c1; c2; c3] ∧
    NoDup [c0; c1; c2; c3] ∧ (∀ c, c ∈ [c0; c1; c2; c3] → c ∈ cs) ∧
    get_cell b' c0.1 c0.2 = Some PeanutButter ∧
    get_cell b' c1.1 c1.2 = Some Jelly ∧
    get_cell b' c2.1 c2.2 = Some Bread ∧
    get_cell b' c3.1 c3.2 = Some Goal ∧
    (∀ x y, (x, y) ∉ [c0; c1; c2; c3] → get_cell b' x y = get_cell (board g) x y).
Proof.
  intros Hcs Hnd Hlen Hs.
  destruct (spawnFood_spec rand cs g Hcs Hs) as (b' & Hb' & _ & Hspawn).
  rewrite decide_True in Hspawn by done.
  assert (Hdl := draws_length rand 4 0 cs). rewrite Nat.min_l in Hdl by lia.
  assert (Hdn := draws_NoDup rand 4 0 cs Hnd).
  assert (Hds := draws_subseteq rand 4 0 cs).
  destruct (draws rand 4 0 cs) as [|c0 [|c1 [|c2 [|c3 [|]]]]]; try discriminate Hdl.
  assert (Hget := place4_get _ _ _ _ _ _ Hb').
  destruct (NoDup4 _ _ _ _ Hdn) as (N01 & N02 & N03 & N12 & N13 & N23).
  exists c0, c1, c2, c3, b'. split_and!; try done.
  - rewrite Hget. destruct c0. simpl. repeat case_decide; first [reflexivity | congruence].
  - rewrite Hget. destruct c1. simpl. repeat case_decide; first [reflexivity | congruence].
  - rewrite Hget. destruct c2. simpl. repeat case_decide; first [reflexivity | congruence].
  - rewrite Hget. destruct c3. simpl. repeat case_decide; first [reflexivity | congruence].
  - intros x y Hnot. rewrite Hget.
    repeat case_decide; try done; exfalso; apply Hnot; subst; repeat constructor.
Qed.

Lemma spawnFood_places_witness :
  ∃ c0 c1 c2 c3 b',
    spawnFood rand0 [(0, 0); (4, 4); (2, 2); (1, 3); (3, 1)] blank =
      Done tt (with_board b' blank) ∧
    draws rand0 4 0 [(0, 0); (4, 4); (2, 2); (1, 3); (3, 1)] = [c0; c1; c2; c3] ∧
    NoDup [c0; c1; c2; c3] ∧
    (∀ c, c ∈ [c0; c1; c2; c3] → c ∈ [(0, 0); (4, 4); (2, 2); (1, 3); (3, 1)]) ∧
    get_cell b' c0.1 c0.2 = Some PeanutButter ∧
    get_cell b' c1.1 c1.2 = Some Jelly ∧
    get_cell b' c2.1 c2.2 = Some Bread ∧
    get_cell b' c3.1 c3.2 = Some Goal ∧
    (∀ x y, (x, y) ∉ [c0; c1; c2; c3] → get_cell b' x y = get_cell (board blank) x y).
Proof.
  apply (spawnFood_places rand0 [(0, 0); (4, 4); (2, 2); (1, 3); (3, 1)] blank).
  - unfold cells_in_grid, in_grid. repeat constructor; simpl; lia.
  - apply (bool_decide_unpack _). vm_compute. exact I.
  - simpl. lia.
  - exact (proj1 blank_ok).
Defined.

(** ** [draw] *)






(** ** The index of meshes *)

Module BlobFacts.
Import Blob.

Section Index.
Context (names : string) (vertices : N).

Lemma add_entry_inr index e index' :
  add_entry names vertices index e = inr index' ↔
  valid names vertices e ∧ index !! name_of names e = None ∧
  index' = <[name_of names e := mesh_of e]> index.
Proof.
  unfold add_entry, valid, mesh_of.
  destruct (N.ltb_spec (name_end e) (name_begin e)),
    (N.ltb_spec (N.of_nat (String.length names)) (name_end e)),
    (N.ltb_spec (vertex_end e) (vertex_begin e)),
    (N.ltb_spec vertices (vertex_end e)); simpl;
    try (split; [discriminate | intros ((? & ? & ? & ?) & _); lia]).
  destruct (index !! name_of names e) as [m|] eqn:Hm.
  - split; [discriminate | by intros (_ & [=] & _)].
  - split; [intros [= <-]; by split_and! | intros (_ & _ & ->); done].
Qed.

Lemma add_entries_inr index es index' :
  add_entries names vertices index es = inr index' ↔
  Forall (valid names vertices) es ∧ NoDup (name_of names <$> es) ∧
  (∀ e, e ∈ es → index !! name_of names e = None) ∧
  index' = foldl (put names) index es.
Proof.
  revert index. induction es as [|e es IH]; intros index; simpl.
  - split; [intros [= <-]; split_and!; [constructor | constructor | | done] | by intros (_ & _ & _ & ->)].
    intros e He. by apply elem_of_nil in He.
  - destruct (add_entry names vertices index e) as [ex|index1] eqn:He.
    + split; [discriminate|]. intros (Hv & Hnd & Hfresh & _). exfalso.
      apply Forall_cons_1 in Hv as [Hv _].
      assert (Hok : add_entry names vertices index e =
                    inr (<[name_of names e := mesh_of e]> index)).
      { apply add_entry_inr. split_and!; [done | apply Hfresh; left | done]. }
      congruence.
    + apply add_entry_inr in He as (Hv & Hfresh & ->). rewrite IH. split.
      * intros (Hvs & Hnd & Hfr & ->). split_and!; [by constructor | | | done].
        -- apply list.NoDup_cons. split; [|done].
           intros (e' & Heq & He')%list_elem_of_fmap. specialize (Hfr e' He').
           rewrite <- Heq, lookup_insert_eq in Hfr. discriminate.
        -- intros e' [->|He']%elem_of_cons; [done|]. specialize (Hfr e' He').
           destruct (decide (name_of names e = name_of names e')) as [Heq|Hne].
           ++ rewrite <- Heq, lookup_insert_eq in Hfr. discriminate.
           ++ by rewrite lookup_insert_ne in Hfr.
      * intros (Hvs & Hnd & Hfr & ->).
        apply Forall_cons_1 in Hvs as [_ Hvs]. apply list.NoDup_cons in Hnd as [Hnot Hnd].
        split_and!; [done | done | | done].
        intros e' He'. rewrite lookup_insert_ne; [apply Hfr; by right|].
        intros Heq. apply Hnot. apply list_elem_of_fmap. eauto.
Qed.

Lemma foldl_put_other es index n :
  n ∉ name_of names <$> es → foldl (put names) index es !! n = index !! n.
Proof.
  revert index. induction es as [|e es IH]; intros index Hn; [done|]. simpl.
  rewrite fmap_cons, not_elem_of_cons in Hn. destruct Hn as [Hne Hn].
  rewrite IH by done. unfold put. by rewrite lookup_insert_ne.
Qed.

Lemma foldl_put_entry es index e :
  NoDup (name_of names <$> es) → e ∈ es →
  foldl (put names) index es !! name_of names e = Some (mesh_of e).
Proof.
  revert index. induction es as [|e0 es IH]; intros index Hnd He;
    [by apply elem_of_nil in He|].
  rewrite fmap_cons in Hnd. apply list.NoDup_cons in Hnd as [Hnot Hnd]. simpl.
  apply elem_of_cons in He as [->|He].
  - rewrite foldl_put_other by done. apply lookup_insert_eq.
  - by apply IH.
Qed.

Lemma foldl_put_lookup es index n m :
  NoDup (name_of names <$> es) → foldl (put names) index es !! n = Some m →
  (∃ e, e ∈ es ∧ n = name_of names e ∧ m = mesh_of e) ∨ index !! n = Some m.
Proof.
  intros Hnd Hm. destruct (decide (n ∈ name_of names <$> es)) as [Hin|Hnot].
  - apply list_elem_of_fmap in Hin as (e & -> & He). left. exists e.
    rewrite foldl_put_entry in Hm by done. injection Hm as <-. by split_and!.
  - right. by rewrite foldl_put_other in Hm.
Qed.

(** X14.  The index is built exactly when every entry has its name inside
    [names] and its vertices inside the vertex data, begin before end, and
    no two entries have the same name; otherwise the constructor throws. *)
Theorem index_built_iff es :
  (∃ index, add_entries names vertices ∅ es = inr index) ↔
  Forall (valid names vertices) es ∧ NoDup (name_of names <$> es).
Proof.
  split.
  - intros (index & Hi). apply add_entries_inr in Hi. tauto.
  - intros (Hv & Hnd). eexists. apply add_entries_inr. split_and!; [done..| |done].
    intros e _. apply lookup_empty.
Qed.

(** X15.  When the index is built (of fewer than 2^31 vertices), looking
    up the name of an entry gives the mesh of that entry, with [first] the
    begin of its vertices and [count] their number; looking up any other
    name throws the error that names the mesh. *)
Theorem lookup_after_build es index :
  (vertices < 2 ^ 31)%N →
  add_entries names vertices ∅ es = inr index →
  (∀ e, e ∈ es →
     lookup index (name_of names e) =
       inr {| first := vertex_begin e; count := (vertex_end e - vertex_begin e)%N |}) ∧
  (∀ n, n ∉ name_of names <$> es →
     lookup index n =
       inl (runtime_error ("Mesh named '" +:+ n +:+ "' does not appear in index."))).
Proof.
  intros _ (Hv & Hnd & _ & ->)%add_entries_inr. split.
  - intros e He. unfold lookup. by rewrite foldl_put_entry.
  - intros n Hn. unfold lookup. by rewrite foldl_put_other, lookup_empty.
Qed.

(** X16.  Every mesh of a built index (of fewer than 2^31 vertices) lies
    inside the vertex data:
    [first + count] is at most the number of vertices, so [glDrawArrays]
    is given a range that exists. *)
Theorem meshes_in_range es index n m :
  (vertices < 2 ^ 31)%N →
  add_entries names vertices ∅ es = inr index →
  index !! n = Some m → (first m + count m <= vertices)%N.
Proof.
  intros _ (Hv & Hnd & _ & ->)%add_entries_inr Hm.
  apply foldl_put_lookup in Hm as [(e & He & -> & ->)|Hm];
    [| by rewrite lookup_empty in Hm | done].
  rewrite Forall_forall in Hv. destruct (Hv e He) as (_ & _ & Hb & He'). simpl. lia.
Qed.

(** X17.  The loop stops at the first entry that fails: the entries
    before it decide the map it is checked against, and the entries after
    it are never looked at. *)
Theorem first_failure_decides pre e post index ex :
  add_entries names vertices ∅ pre = inr index →
  add_entry names vertices index e = inl ex →
  add_entries names vertices ∅ (pre ++ e :: post) = inl ex.
Proof.
  generalize (∅ : gmap string Mesh) as index0.
  induction pre as [|e0 pre IH]; intros index0 Hpre He; simpl in *.
  - injection Hpre as ->. by rewrite He.
  - destruct (add_entry names vertices index0 e0) as [?|index1]; [discriminate|].
    by apply IH.
Qed.

(** X18.  The constructor gets its six meshes (of fewer than 2^31
    vertices) exactly when every entry of the index is valid, no two
    entries have the same name, and there are entries named Tile, Doll,
    bread, PB, J and Cube; the six meshes are those of these entries.  An
    entry named Cursor is not asked for. *)
Theorem load_meshes_iff es ms :
  (vertices < 2 ^ 31)%N →
  load_meshes names vertices es = inr ms ↔
  Forall (valid names vertices) es ∧ NoDup (name_of names <$> es) ∧
  entry_named names es "Tile" (tile_mesh ms) ∧
  entry_named names es "Doll" (doll_mesh ms) ∧
  entry_named names es "bread" (bread_mesh ms) ∧
  entry_named names es "PB" (pb_mesh ms) ∧
  entry_named names es "J" (j_mesh ms) ∧
  entry_named names es "Cube" (cube_mesh ms).
Proof.
  intros _. unfold load_meshes, lookup.
  destruct (add_entries names vertices ∅ es) as [ex|index] eqn:Hadd.
  - split; [discriminate|]. intros (Hv & Hnd & _). exfalso.
    assert (∃ index, add_entries names vertices ∅ es = inr index) as [index Hi];
      [|congruence].
    eexists. apply add_entries_inr. split_and!; [done..| |done].
    intros e _. apply lookup_empty.
  - apply add_entries_inr in Hadd as (Hv & Hnd & _ & ->).
    assert (Hget : ∀ n m, foldl (put names) ∅ es !! n = Some m ↔ entry_named names es n m).
    { intros n m. split.
      - intros [(e & He & -> & ->)|Hm]%foldl_put_lookup; [|by rewrite lookup_empty in Hm|done].
        by exists e.
      - intros (e & He & <- & <-). by apply foldl_put_entry. }
    split.
    + intros Hl.
      repeat match type of Hl with
             | context [foldl (put names) ∅ es !! ?n] =>
                 destruct (foldl (put names) ∅ es !! n) eqn:?; [|discriminate]
             end.
      injection Hl as <-. simpl. split_and!; try done; by apply Hget.
    + intros (_ & _ & H1 & H2 & H3 & H4 & H5 & H6).
      apply Hget in H1, H2, H3, H4, H5, H6.
      rewrite H1, H2, H3, H4, H5, H6. by destruct ms.
Qed.

End Index.

Lemma lookup_after_build_witness :
  (∀ e, e ∈ sample_entries →
     lookup (foldl (put sample_names) ∅ sample_entries) (name_of sample_names e) =
       inr {| first := vertex_begin e; count := (vertex_end e - vertex_begin e)%N |}) ∧
  (∀ n, n ∉ name_of sample_names <$> sample_entries →
     lookup (foldl (put sample_names) ∅ sample_entries) n =
       inl (runtime_error ("Mesh named '" +:+ n +:+ "' does not appear in index."))).
Proof.
  apply (lookup_after_build sample_names 96 sample_entries).
  - reflexivity.
  - vm_compute. reflexivity.
Defined.

Lemma meshes_in_range_witness :
  (first {| first := 6; count := 24 |} + count {| first := 6; count := 24 |} <= 96)%N.
Proof.
  apply (meshes_in_range sample_names 96 sample_entries
           (foldl (put sample_names) ∅ sample_entries) "Doll").
  - reflexivity.
  - vm_compute. reflexivity.
  - vm_compute. reflexivity.
Defined.

Lemma load_meshes_iff_witness :
  load_meshes sample_names 96 sample_entries =
    inr {| tile_mesh := {| first := 0; count := 6 |};
           doll_mesh := {| first := 6; count := 24 |};
           bread_mesh := {| first := 30; count := 12 |};
           pb_mesh := {| first := 42; count := 6 |};
           j_mesh := {| first := 48; count := 12 |};
           cube_mesh := {| first := 60; count := 36 |} |} ↔
  Forall (valid sample_names 96) sample_entries ∧
  NoDup (name_of sample_names <$> sample_entries) ∧
  entry_named sample_names sample_entries "Tile" {| first := 0; count := 6 |} ∧
  entry_named sample_names sample_entries "Doll" {| first := 6; count := 24 |} ∧
  entry_named sample_names sample_entries "bread" {| first := 30; count := 12 |} ∧
  entry_named sample_names sample_entries "PB" {| first := 42; count := 6 |} ∧
  entry_named sample_names sample_entries "J" {| first := 48; count := 12 |} ∧
  entry_named sample_names sample_entries "Cube" {| first := 60; count := 36 |}.
Proof.
  apply (load_meshes_iff sample_names 96 sample_entries
           {| tile_mesh := {| first := 0; count := 6 |};
              doll_mesh := {| first := 6; count := 24 |};
              bread_mesh := {| first := 30; count := 12 |};
              pb_mesh := {| first := 42; count := 6 |};
              j_mesh := {| first := 48; count := 12 |};
              cube_mesh := {| first := 60; count := 36 |} |}).
  reflexivity.
Defined.

Example load_meshes_sample :
  load_meshes sample_names 96 sample_entries =
    inr {| tile_mesh := {| first := 0; count := 6 |};
           doll_mesh := {| first := 6; count := 24 |};
           bread_mesh := {| first := 30; count := 12 |};
           pb_mesh := {| first := 42; count := 6 |};
           j_mesh := {| first := 48; count := 12 |};
           cube_mesh := {| first := 60; count := 36 |} |}.
Proof. vm_compute. reflexivity. Qed.

Lemma first_failure_decides_witness :
  add_entries sample_names 96 ∅
    (sample_entries ++
     {| name_begin := 0; name_end := 4; vertex_begin := 0; vertex_end := 6 |} ::
     [{| name_begin := 9; name_end := 2; vertex_begin := 0; vertex_end := 0 |}]) =
  inl (runtime_error "duplicate name in index.").
Proof.
  apply (first_failure_decides sample_names 96 sample_entries _ _
           (foldl (put sample_names) ∅ sample_entries)).
  - vm_compute. reflexivity.
  - vm_compute. reflexivity.
Defined.

End BlobFacts.

(** ** A round can be won *)

Lemma run_app l1 l2 g :
  run (l1 ++ l2) g =
  match run l1 g with Done _ g' => run l2 g' | Failed e g' => Failed e g' end.
Proof.
  revert g. induction l1 as [|c l1 IH]; intros g; [done|].
  change (run ((c :: l1) ++ l2) g) with ((do_call c;; run (l1 ++ l2)) g).
  change (run (c :: l1) g) with ((do_call c;; run l1) g).
  unfold mbind, M_bind. destruct (do_call c g); [apply IH | done].
Qed.

Lemma run_app_Done l1 l2 g g1 :
  run l1 g = Done tt g1 → run (l1 ++ l2) g = run l2 g1.
Proof. intros H. by rewrite run_app, H. Qed.

Lemma run_press r k g g' :
  handle_event r (arrow k) g = Done true g' → run (presses r [k]) g = Done tt g'.
Proof.
  intros Hh. unfold presses. simpl.
  rewrite (bind_Done _ _ g tt g'); [done|]. by rewrite (bind_Done _ _ _ _ _ Hh).
Qed.

Lemma presses_app r l1 l2 : presses r (l1 ++ l2) = presses r l1 ++ presses r l2.
Proof. apply fmap_app. Qed.

Lemma same_items_refl g : same_items g g.
Proof. by split_and!. Qed.

Lemma same_items_trans g1 g2 g3 : same_items g1 g2 → same_items g2 g3 → same_items g1 g3.
Proof.
  intros (Hw & Hr & Hc) (Hw' & Hr' & Hc'). split_and!; [congruence..|].
  intros v Hv. by rewrite Hc', Hc.
Qed.

(** [n] moves in a line. *)
Lemma run_line r k n g :
  is_arrow k = true → Play g →
  (∀ i, (i ≤ n)%nat → interior (Nat.iter i (step_of k) (chef g))) →
  ∃ g', run (presses r (replicate n k)) g = Done tt g' ∧ Play g' ∧
        chef g' = Nat.iter n (step_of k) (chef g) ∧ same_items g g'.
Proof.
  intros Hk. revert g. induction n as [|n IH]; intros g HP Hline.
  - exists g. split_and!; [done..|]. apply same_items_refl.
  - assert (Hint : interior (step_of k (chef g))) by (apply (Hline 1%nat); lia).
    destruct (arrow_facts k (chef g) Hk) as (_ & Hne & _); [apply HP|].
    destruct (press_moves r k g Hk (proj1 HP) Hint) as (g1 & Hh & _ & _ & _ & Hmove).
    destruct (move_chef_Play (step_of k) g HP Hint Hne)
      as (g1' & Hmove' & HP1 & Hc1 & Hw1 & Hr1 & _ & _ & Hcells1).
    rewrite Hmove in Hmove'. injection Hmove' as <-.
    destruct (IH g1 HP1) as (g' & Hrun & HP' & Hc' & Hsame).
    { intros i Hi. rewrite Hc1, <- Nat.iter_succ_r. apply Hline. lia. }
    exists g'. split_and!; try done.
    + change (presses r (replicate (S n) k)) with (presses r [k] ++ presses r (replicate n k)).
      by rewrite (run_app_Done _ _ _ _ (run_press _ _ _ _ Hh)).
    + by rewrite Hc', Hc1, <- Nat.iter_succ_r.
    + eapply same_items_trans; [|exact Hsame]. by split_and!.
Qed.

Lemma iter_step k i c :
  Nat.iter i (step_of k) c =
  match k with
  | SDL_SCANCODE_UP => {| X := X c + Z.of_nat i; Y := Y c |}
  | SDL_SCANCODE_DOWN => {| X := X c - Z.of_nat i; Y := Y c |}
  | SDL_SCANCODE_LEFT => {| X := X c; Y := Y c - Z.of_nat i |}
  | SDL_SCANCODE_RIGHT => {| X := X c; Y := Y c + Z.of_nat i |}
  | SDL_SCANCODE_OTHER => c
  end.
Proof.
  induction i as [|i IH].
  - destruct k, c; simpl; f_equal; lia.
  - rewrite Nat.iter_succ, IH.
    destruct k, c; simpl; unfold x_plus_1, x_minus_1, y_plus_1, y_minus_1; simpl;
      f_equal; lia.
Qed.

(** The moves of [walk] along one axis. *)
Lemma run_axis r k n g q :
  is_arrow k = true → Play g → interior q →
  Nat.iter n (step_of k) (chef g) = q →
  ∃ g', run (presses r (replicate n k)) g = Done tt g' ∧ Play g' ∧
        chef g' = q ∧ same_items g g'.
Proof.
  intros Hk HP Hq Hn.
  destruct (run_line r k n g Hk HP) as (g' & Hrun & HP' & Hc & Hsame).
  - intros i Hi. assert (Hc : interior (chef g)) by apply HP.
    rewrite iter_step in Hn |- *. subst q.
    destruct k; try discriminate; unfold interior in *; simpl in *; lia.
  - exists g'. split_and!; try done. by rewrite Hc.
Qed.

Lemma walk_reaches r g q :
  Play g → interior q →
  ∃ g', run (presses r (walk (chef g) q)) g = Done tt g' ∧ Play g' ∧
        chef g' = q ∧ same_items g g'.
Proof.
  intros HP Hq. assert (Hc : interior (chef g)) by apply HP.
  unfold walk. rewrite !presses_app.
  destruct (run_axis r SDL_SCANCODE_UP (Z.to_nat (X q - X (chef g))) g
    {| X := Z.max (X (chef g)) (X q); Y := Y (chef g) |})
    as (g1 & Hr1 & HP1 & Hc1 & Hs1); [done | done | | |].
  { unfold interior in *. simpl. lia. }
  { rewrite iter_step. f_equal. lia. }
  destruct (run_axis r SDL_SCANCODE_DOWN (Z.to_nat (X (chef g) - X q)) g1
    {| X := X q; Y := Y (chef g) |})
    as (g2 & Hr2 & HP2 & Hc2 & Hs2); [done | done | | |].
  { unfold interior in *. simpl. lia. }
  { rewrite iter_step, Hc1. simpl. f_equal. lia. }
  destruct (run_axis r SDL_SCANCODE_RIGHT (Z.to_nat (Y q - Y (chef g))) g2
    {| X := X q; Y := Z.max (Y (chef g)) (Y q) |})
    as (g3 & Hr3 & HP3 & Hc3 & Hs3); [done | done | | |].
  { unfold interior in *. simpl. lia. }
  { rewrite iter_step, Hc2. simpl. f_equal. lia. }
  destruct (run_axis r SDL_SCANCODE_LEFT (Z.to_nat (Y (chef g) - Y q)) g3 q)
    as (g4 & Hr4 & HP4 & Hc4 & Hs4); [done | done | done | |].
  { rewrite iter_step, Hc3. destruct q. simpl. f_equal. lia. }
  exists g4.
  rewrite (run_app_Done _ _ _ _ Hr1), (run_app_Done _ _ _ _ Hr2), (run_app_Done _ _ _ _ Hr3).
  split_and!; try done.
  eauto using same_items_trans.
Qed.

Lemma approach_facts s :
  s ∈ fillIn →
  interior (approach s).1 ∧ is_arrow (approach s).2 = true ∧
  step_of (approach s).2 (approach s).1 = {| X := s.1; Y := s.2 |} ∧
  ¬ interior (step_of (approach s).2 (approach s).1).
Proof.
  unfold fillIn. intros H.
  repeat (apply elem_of_cons in H as [->|H]);
    [vm_compute; split_and!; try done; intuition discriminate ..|].
  by apply elem_of_nil in H.
Qed.

(** Walking to a side square that holds an ingredient and pressing
    against it picks the ingredient up. *)
Lemma visit_collects r g s item :
  Play g → s ∈ fillIn → cells_holding item (board g) = [s] → collectible item →
  ∃ g', run (presses r (visit (chef g) s)) g = Done tt g' ∧ Play g' ∧
        chef g' = (approach s).1 ∧ win g' = collect item (win g) ∧
        board_rotations g' = board_rotations g ∧
        (∀ v, v ≠ item → v ≠ 6 → 2 <= v →
              cells_holding v (board g') = cells_holding v (board g)).
Proof.
  intros HP Hs Hcell Hc.
  destruct (approach_facts s Hs) as (Hint & Hk & Hstep & Hout).
  destruct (walk_reaches r g (approach s).1 HP Hint)
    as (g1 & Hrun1 & HP1 & Hc1 & Hw1 & Hr1 & Hcells1).
  assert (Hitem : get_cell (board g1) s.1 s.2 = Some item).
  { assert (Hr : 2 <= item) by (unfold collectible, PeanutButter, Jelly, Bread in Hc; lia).
    apply (cells_holding_elem _ _ _ _ (proj1 (proj1 (proj1 HP1)))).
    rewrite Hcells1, Hcell by done. destruct s. by apply list_elem_of_singleton. }
  rewrite <- Hc1 in Hstep, Hout.
  destruct (press_edge_cases r (approach s).2 g1 Hk (proj1 HP1) Hout)
    as (item' & Hitem' & [(_ & b & ms & Hb & Hms & Hh & _)
                         |[(Hg & _)|(Hnc & _)]]);
    rewrite Hstep in Hitem'; simpl in Hitem'; rewrite Hitem in Hitem';
    injection Hitem' as <-;
    [| unfold collectible, Goal, PeanutButter, Jelly, Bread in *; lia | done].
  rewrite Hstep in Hb, Hms. simpl in Hb, Hms.
  destruct (collect_Play g1 _ _ item b ms HP1 Hitem Hc Hb Hms) as (HP' & _ & _ & Hcells').
  eexists. split_and!.
  - unfold visit. rewrite presses_app.
    rewrite (run_app_Done _ _ _ _ Hrun1). apply run_press. exact Hh.
  - done.
  - done.
  - simpl. by rewrite Hw1.
  - done.
  - intros v Hv1 Hv2 Hv3. simpl. rewrite Hcells' by done. by apply Hcells1.
Qed.

(** Walking to the goal with the three flags set and pressing against it
    wins the round. *)
Lemma visit_wins r g s :
  Play g → s ∈ fillIn → cells_holding Goal (board g) = [s] → win_all (win g) = true →
  ∃ g', run (presses r (visit (chef g) s)) g = Done tt g' ∧ win g' = no_flags ∧
        board_rotations g' = board_rotations g ++ replicate 25 quat_identity.
Proof.
  intros HP Hs Hcell Hw.
  destruct (approach_facts s Hs) as (Hint & Hk & Hstep & Hout).
  destruct (walk_reaches r g (approach s).1 HP Hint)
    as (g1 & Hrun1 & HP1 & Hc1 & Hw1 & Hr1 & Hcells1).
  assert (Hitem : get_cell (board g1) s.1 s.2 = Some Goal).
  { apply (cells_holding_elem _ _ _ _ (proj1 (proj1 (proj1 HP1)))).
    rewrite Hcells1, Hcell by (unfold Goal; lia). destruct s. by apply list_elem_of_singleton. }
  rewrite <- Hc1 in Hstep, Hout.
  destruct (press_edge_cases r (approach s).2 g1 Hk (proj1 HP1) Hout)
    as (item' & Hitem' & [(Hc & _)
                         |[(_ & _ & g2 & g3 & Hinit & Hmove & Hh & _ & _ & Hw3)|(_ & Hn & _)]]);
    rewrite Hstep in Hitem'; simpl in Hitem'; rewrite Hitem in Hitem';
    injection Hitem' as <-;
    [unfold collectible, Goal, PeanutButter, Jelly, Bread in Hc; lia | |
     exfalso; apply Hn; split; [done | by rewrite Hw1]].
  destruct (initBoard_Play r (with_win no_flags g1))
    as (g2' & Hinit' & HP2 & _ & Hc2 & Hr2 & _); [apply HP1|].
  rewrite Hinit in Hinit'. injection Hinit' as <-.
  destruct (arrow_facts (approach s).2 {| X := 2; Y := 2 |} Hk) as (_ & Hne & _ & Hcan & _).
  { unfold interior. simpl. lia. }
  destruct (move_chef_Play (step_of (approach s).2) g2 HP2)
    as (g3' & Hmove' & _ & _ & _ & Hr3 & _).
  { rewrite Hc2. apply Hcan. by destruct ((approach s).2). }
  { by rewrite Hc2. }
  rewrite Hmove in Hmove'. injection Hmove' as <-.
  exists g3. split_and!; [|done|].
  - unfold visit. rewrite presses_app.
    rewrite (run_app_Done _ _ _ _ Hrun1). apply run_press. exact Hh.
  - rewrite Hr3, Hr2. simpl. by rewrite Hr1.
Qed.

(** X19.  Every round can be won: wherever [initBoard] puts the items,
    the arrows of [winning_keys] walk the chef to the three ingredients
    and then to the goal, [handle_event] returns on each of them, and the
    game is in its next round, the flags cleared and 25 more rotations in
    [board_rotations]. *)
Theorem round_can_be_won rand r g0 :
  storage_ok g0 →
  ∃ c0 c1 c2 c3 g,
    draws rand 4 0 fillIn = [c0; c1; c2; c3] ∧
    run (Initialize rand :: presses r (winning_keys c0 c1 c2 c3)) g0 = Done tt g ∧
    win g = no_flags ∧
    length (board_rotations g) = (length (board_rotations g0) + 50)%nat.
Proof.
  intros Hok.
  destruct (initBoard_Play rand g0 Hok) as (g1 & Hinit & HP1 & _ & Hc1 & Hr1 & Hb1 & _).
  destruct (draws_fillIn rand) as (c0 & c1 & c2 & c3 & Hd & Hnd & Hsub).
  rewrite Hd in Hb1.
  destruct (initBoard_cells _ _ _ _ _ Hnd Hsub Hb1) as (H3 & H2 & H4 & H5 & _).
  exists c0, c1, c2, c3.
  destruct (visit_collects r g1 c0 PeanutButter HP1) as (g2 & Hrun2 & HP2 & Hc2 & Hw2 & Hr2 & Hk2);
    [apply Hsub; repeat constructor | done | by left |].
  destruct (visit_collects r g2 c1 Jelly HP2) as (g3 & Hrun3 & HP3 & Hc3 & Hw3 & Hr3 & Hk3);
    [apply Hsub; repeat constructor | by rewrite Hk2 | right; by left |].
  destruct (visit_collects r g3 c2 Bread HP3) as (g4 & Hrun4 & HP4 & Hc4 & Hw4 & Hr4 & Hk4);
    [apply Hsub; repeat constructor | by rewrite Hk3, Hk2 | right; by right |].
  destruct (visit_wins r g4 c3 HP4) as (g5 & Hrun5 & Hw5 & Hr5);
    [apply Hsub; repeat constructor | by rewrite Hk4, Hk3, Hk2 | |].
  { rewrite Hw4, Hw3, Hw2. reflexivity. }
  exists g5. split_and!; [done | | done |].
  - rewrite (run_first _ _ _ _ Hinit). unfold winning_keys.
    rewrite !presses_app.
    rewrite Hc1 in Hrun2. rewrite Hc2 in Hrun3. rewrite Hc3 in Hrun4. rewrite Hc4 in Hrun5.
    by rewrite (run_app_Done _ _ _ _ Hrun2), (run_app_Done _ _ _ _ Hrun3),
      (run_app_Done _ _ _ _ Hrun4).
  - rewrite Hr5, Hr4, Hr3, Hr2, Hr1. rewrite !length_app, !length_replicate. lia.
Qed.

Lemma round_can_be_won_witness :
  ∃ c0 c1 c2 c3 g,
    draws rand0 4 0 fillIn = [c0; c1; c2; c3] ∧
    run (Initialize rand0 :: presses rand0 (winning_keys c0 c1 c2 c3)) blank = Done tt g ∧
    win g = no_flags ∧
    length (board_rotations g) = (length (board_rotations blank) + 50)%nat.
Proof. apply (round_can_be_won rand0 rand0 blank). exact blank_ok. Defined.
